(** * nullboot: kernel manager and EFI variable doubles

    A shallow embedding of package [efibootmgr]: the kernel manager
    ([KernelManager], [NewKernelManager], [readKernels], [InstallKernels],
    [RemoveObsoleteKernels], [CommitToBootLoader]) and the two
    implementations of the EFI variable interface that live next to it
    ([NoEFIVariables], [MockEFIVariables]).

    Go values are modelled as follows.
    - [string] is a byte string; slicing [s[n:]] is [string_from n s] and
      panics (returns [None]) when [n] exceeds the length.
    - [error] is an inductive type: the two go-efilib sentinels, values made
      by [errors.New] (identified by their text), and values made by
      [fmt.Errorf] with a wrapped cause. The sentinels are constructors of
      their own: no [errors.New] value is equal to one of them.
    - a function with side effects is a state transformer that may panic:
      [M S A := S -> option (A * S)].
    - the package-level [appFs], the log written by package [log], the
      Debian version library and [sort.Slice] are interfaces ([Host],
      [DebVersion], [SortSlice]) with executable instances further down. *)

From Stdlib Require Import String Ascii List Sorted Permutation Lia Bool Arith.
From stdpp Require Import base option list strings gmap sorting.

Local Open Scope string_scope.
Local Open Scope list_scope.
Local Open Scope nat_scope.

(** ** Go errors *)

Inductive error : Type :=
| ErrVarsUnavailable                                   (* efi.ErrVarsUnavailable *)
| ErrVarNotExist                                       (* efi.ErrVarNotExist *)
| errors_New (text : string)                           (* errors.New(text) *)
| fmt_Errorf (format : string) (args : list string) (cause : error).
                                                       (* fmt.Errorf(format, args..., cause) with %w *)

#[global] Instance error_eq_dec : EqDecision error.
Proof. solve_decision. Defined.

(** [errors.Unwrap]-style chain: the innermost cause of an error. *)
Fixpoint error_cause (e : error) : error :=
  match e with
  | fmt_Errorf _ _ c => error_cause c
  | _ => e
  end.

(** A Go result pair [(T, error)] in which the value is meaningful only
    when the error is nil. *)
Inductive result (A : Type) : Type :=
| Ok (a : A)
| Err (e : error).
Arguments Ok {A} a.
Arguments Err {A} e.

(** ** Byte strings *)

(** [s[n:]]: the suffix from byte [n]; [None] is the run-time panic
    "slice bounds out of range". *)
Fixpoint string_from (n : nat) (s : string) : option string :=
  match n with
  | O => Some s
  | S n' =>
      match s with
      | EmptyString => None
      | String _ s' => string_from n' s'
      end
  end.

(** [strings.HasPrefix(s, p)]. *)
Definition strings_HasPrefix (s p : string) : bool := String.prefix p s.

Definition kernelPrefix : string := "kernel.efi-".

(** The one-byte string that Go writes as a backslash literal. *)
Definition backslash : string := String (ascii_of_nat 92) EmptyString.

(** ** Effects: state passing with panics *)

Definition M (S A : Type) : Type := S → option (A * S).

#[global] Instance M_ret {S} : MRet (M S) := λ A a s, Some (a, s).
#[global] Instance M_bind {S} : MBind (M S) := λ A B f m s,
  match m s with
  | Some (a, s') => f a s'
  | None => None
  end.

(** A run-time panic: the process stops. *)
Definition panic {S A} : M S A := λ _, None.

(** Lift a partial pure computation; [None] panics. *)
Definition orPanic {S A} (o : option A) : M S A :=
  match o with
  | Some a => mret a
  | None => panic
  end.

(** ** Boot entries *)

Record BootEntry : Type := mkBootEntry {
  Filename : string;
  Label : string;
  Options : string;
  Description : string;
}.

#[global] Instance BootEntry_eq_dec : EqDecision BootEntry.
Proof. solve_decision. Defined.

(** ** The host: file system, helpers of the package, standard library *)

(** The package reaches the outside world through the global [appFs] and
    through a few helpers whose bodies are in other files of the package
    ([MaybeUpdateFile], [WriteShimFallbackToFile], [GetEfiArchitecture]).
    They are the fields of [Host]; [FS] is the state of the file system. *)
Class Host : Type := {
  FS : Type;
  (* appFs.ReadDir(dir): the names of the entries of [dir] *)
  ReadDir : FS → string → result (list string);
  (* appFs.Remove(name) *)
  Remove : FS → string → FS * option error;
  (* appFs.Open(name) followed by Close *)
  Open : FS → string → option error;
  (* MaybeUpdateFile(dst, src) = (updated, err) *)
  MaybeUpdateFile : FS → string → string → FS * (bool * option error);
  (* WriteShimFallbackToFile(path, entries) *)
  WriteShimFallbackToFile : FS → string → list BootEntry → FS * option error;
  GetEfiArchitecture : string;
  (* path.Join(dir, name) *)
  path_Join : string → string → string;
  (* strings.ToUpper *)
  strings_ToUpper : string → string;
}.

(** Lines written through package [log]. *)
Inductive LogArg : Type :=
| ArgS (s : string)
| ArgE (e : error).

Inductive LogLine : Type :=
| Print (args : list LogArg)                        (* log.Print(args...) *)
| Printf (format : string) (args : list LogArg).    (* log.Printf(format, args...) *)

(** Calls that reached the file system, with what they returned. *)
Inductive Call : Type :=
| CallRemove (name : string) (err : option error)
| CallMaybeUpdateFile (dst src : string) (updated : bool) (err : option error)
| CallWriteShimFallbackToFile (name : string) (entries : list BootEntry)
    (err : option error).

(** ** The Debian version library (github.com/knqyf263/go-deb-version) *)

Class DebVersion : Type := {
  Version : Type;
  (* version.NewVersion(s) *)
  NewVersion : string → result Version;
  (* a.GreaterThan(b) *)
  GreaterThan : Version → Version → bool;
}.

(** ** sort.Slice *)

(** Go documents what [less] must satisfy for the slice to end up sorted:
    a transitive ordering whose negation is transitive too. The relation
    only matters on the elements of the slice. *)
Record sortable {A} (R : A → A → bool) (l : list A) : Prop := {
  sortable_irrefl : ∀ a, a ∈ l → R a a = false;
  sortable_trans : ∀ a b c, a ∈ l → b ∈ l → c ∈ l →
    R a b = true → R b c = true → R a c = true;
  sortable_negtrans : ∀ a b c, a ∈ l → b ∈ l → c ∈ l →
    R a b = false → R b c = false → R a c = false;
}.

(** [less] is called on the elements found at two indices of the slice as
    it stands at the time of the call; it runs in its own state [S] (the
    variables its closure captured) and may panic. *)
Class SortSlice : Type :=
  sort_Slice : ∀ {A S : Type}, (A → A → M S bool) → list A → M S (list A).

(** What the kernel manager relies on. *)
Class SortSliceLaws (So : SortSlice) : Prop := {
  (* fewer than two elements: nothing is compared *)
  sort_Slice_short : ∀ A S (less : A → A → M S bool) l st,
    (List.length l ≤ 1)%nat → sort_Slice less l st = Some (l, st);
  (* a [less] that computes a sortable relation and leaves its state alone
     yields a sorted rearrangement *)
  sort_Slice_sorts : ∀ A S (less : A → A → M S bool) (R : A → A → bool) l st,
    (∀ a b s, a ∈ l → b ∈ l → less a b s = Some (R a b, s)) →
    sortable R l →
    ∃ l', sort_Slice less l st = Some (l', st) ∧ l ≡ₚ l' ∧
          StronglySorted (λ x y, R y x = false) l';
}.

(** ** The kernel manager *)

Record KernelManager : Type := mkKernelManager {
  sourceDir : string;
  targetDir : string;
  sourceKernels : list string;
  targetKernels : list string;
  bootEntries : list BootEntry;
  kernelOptions : string;
}.

Definition set_sourceKernels (ks : list string) (km : KernelManager) :=
  mkKernelManager (sourceDir km) (targetDir km) ks (targetKernels km)
    (bootEntries km) (kernelOptions km).
Definition set_targetKernels (ks : list string) (km : KernelManager) :=
  mkKernelManager (sourceDir km) (targetDir km) (sourceKernels km) ks
    (bootEntries km) (kernelOptions km).
Definition set_bootEntries (es : list BootEntry) (km : KernelManager) :=
  mkKernelManager (sourceDir km) (targetDir km) (sourceKernels km)
    (targetKernels km) es (kernelOptions km).

(** [getKernelABI] returns the kernel ABI part of the kernel filename:
    [kernel[len("kernel.efi-"):]], which panics on a shorter name. *)
Definition getKernelABI (kernel : string) : option string :=
  string_from (String.length kernelPrefix) kernel.

Section Manager.
Context `{H : Host} `{V : DebVersion} `{So : SortSlice}.

(** The state the package runs in. *)
Record Sys : Type := mkSys {
  fs : FS;
  logs : list LogLine;
  calls : list Call;
}.

Definition log_Print (args : list LogArg) : M Sys unit := λ s,
  Some (tt, mkSys (fs s) (logs s ++ [Print args]) (calls s)).
Definition log_Printf (format : string) (args : list LogArg) : M Sys unit := λ s,
  Some (tt, mkSys (fs s) (logs s ++ [Printf format args]) (calls s)).

Definition appFs_ReadDir (dir : string) : M Sys (result (list string)) := λ s,
  Some (ReadDir (fs s) dir, s).
Definition appFs_Remove (name : string) : M Sys (option error) := λ s,
  let '(fs', err) := Remove (fs s) name in
  Some (err, mkSys fs' (logs s) (calls s ++ [CallRemove name err])).
Definition callMaybeUpdateFile (dst src : string) : M Sys (bool * option error) := λ s,
  let '(fs', (updated, err)) := MaybeUpdateFile (fs s) dst src in
  Some ((updated, err),
        mkSys fs' (logs s) (calls s ++ [CallMaybeUpdateFile dst src updated err])).
Definition callWriteShimFallbackToFile (name : string) (entries : list BootEntry)
  : M Sys (option error) := λ s,
  let '(fs', err) := WriteShimFallbackToFile (fs s) name entries in
  Some (err, mkSys fs' (logs s)
               (calls s ++ [CallWriteShimFallbackToFile name entries err])).

(** Assignment to the captured variable [err]. *)
Definition set_err (e : error) : M (option error) unit := λ _, Some (tt, Some e).

(** The closure handed to [sort.Slice] in [readKernels]; its state is the
    captured variable [err]. *)
Definition readKernels_less (ki kj : string) : M (option error) bool :=
  vi ← orPanic (string_from (String.length kernelPrefix) ki);
  match NewVersion vi return M (option error) bool with
  | Err e =>
      set_err (fmt_Errorf "Could not parse kernel version of %s: %w" [ki] e);;
      mret false
  | Ok a =>
      vj ← orPanic (string_from (String.length kernelPrefix) kj);
      match NewVersion vj return M (option error) bool with
      | Err e =>
          set_err (fmt_Errorf "Could not parse kernel version of %s: %w" [kj] e);;
          mret false
      | Ok b => mret (GreaterThan a b)
      end
  end.

(** [readKernels] returns the pair [(kernels, err)]. *)
Definition readKernels (km : KernelManager) (dir : string)
  : M Sys (list string * option error) :=
  r ← appFs_ReadDir dir;
  match r return M Sys (list string * option error) with
  | Err e => mret ([], Some (fmt_Errorf "Could not determine kernels: %w" [] e))
  | Ok entries =>
      let kernels := List.filter (λ n, strings_HasPrefix n kernelPrefix) entries in
      (* [err] is nil here; the closure may assign to it *)
      λ s, match sort_Slice readKernels_less kernels None with
           | Some (sorted, err) => Some ((sorted, err), s)
           | None => None
           end
  end.

(** [NewKernelManager] returns [(km, err)]; [None] is the nil pointer. *)
Definition NewKernelManager : M Sys (option KernelManager * option error) :=
  let km := mkKernelManager "/usr/lib/linux" "/boot/efi/EFI/ubuntu" [] [] []
              "root=magic" in
  '(ks, err) ← readKernels km (sourceDir km);
  let km := set_sourceKernels ks km in
  match err return M Sys (option KernelManager * option error) with
  | Some e => mret (None, Some e)
  | None =>
      '(kt, err) ← readKernels km (targetDir km);
      let km := set_targetKernels kt km in
      match err return M Sys (option KernelManager * option error) with
      | Some e => mret (None, Some e)
      | None => mret (Some km, None)
      end
  end.

(** The entry [InstallKernels] appends for source kernel [sk] whose ABI
    part is [skVersion]. *)
Definition bootEntryFor (km : KernelManager) (sk skVersion : string) : BootEntry :=
  {| Filename := "shim" +:+ GetEfiArchitecture +:+ ".efi";
     Label := "Ubuntu with kernel " +:+ skVersion;
     Options := backslash +:+ sk +:+ " " +:+ kernelOptions km;
     Description := "Ubuntu entry for kernel " +:+ skVersion |}.

(** The loop of [InstallKernels] over the remaining source kernels;
    [entries] is [km.bootEntries] so far. *)
Fixpoint InstallKernels_loop (km : KernelManager) (sks : list string)
    (entries : list BootEntry) : M Sys (list BootEntry) :=
  match sks with
  | [] => mret entries
  | sk :: rest =>
      r ← callMaybeUpdateFile (path_Join (targetDir km) sk)
                              (path_Join (sourceDir km) sk);
      let '(updated, err) := (r : bool * option error) in
      match err return M Sys (list BootEntry) with
      | Some e =>
          log_Printf "Could not install kernel %s: %v" [ArgS sk; ArgE e];;
          InstallKernels_loop km rest entries
      | None =>
          (if updated then log_Printf "Installed or updated kernel %s" [ArgS sk]
           else mret tt);;
          skVersion ← orPanic (getKernelABI sk);
          InstallKernels_loop km rest (entries ++ [bootEntryFor km sk skVersion])
      end
  end.

(** [InstallKernels] installs the kernels to the ESP and builds up the
    boot entries; it returns the manager as left by the call and the
    error result. *)
Definition InstallKernels (km : KernelManager)
  : M Sys (KernelManager * option error) :=
  entries ← InstallKernels_loop km (sourceKernels km) [];
  mret (set_bootEntries entries km, None).

(** [isObsoleteKernel] checks whether a kernel is obsolete. *)
Fixpoint isObsoleteKernel_loop (sks : list string) (k : string) : bool :=
  match sks with
  | [] => true
  | sk :: rest => if String.eqb sk k then false else isObsoleteKernel_loop rest k
  end.
Definition isObsoleteKernel (km : KernelManager) (k : string) : bool :=
  isObsoleteKernel_loop (sourceKernels km) k.

(** The loop of [RemoveObsoleteKernels]; [remaining] is the local slice. *)
Fixpoint RemoveObsoleteKernels_loop (km : KernelManager) (tks : list string)
    (remaining : list string) : M Sys (list string) :=
  match tks with
  | [] => mret remaining
  | tk :: rest =>
      if negb (isObsoleteKernel km tk) then
        RemoveObsoleteKernels_loop km rest remaining
      else
        err ← appFs_Remove (path_Join (targetDir km) tk);
        match err return M Sys (list string) with
        | Some e =>
            log_Printf "Could not remove kernel %s: %v" [ArgS tk; ArgE e];;
            RemoveObsoleteKernels_loop km rest (remaining ++ [tk])
        | None =>
            log_Printf "Removed kernel %s" [ArgS tk];;
            RemoveObsoleteKernels_loop km rest remaining
        end
  end.

(** [RemoveObsoleteKernels] removes old kernels in the ESP vendor
    directory. *)
Definition RemoveObsoleteKernels (km : KernelManager)
  : M Sys (KernelManager * option error) :=
  remaining ← RemoveObsoleteKernels_loop km (targetKernels km) [];
  mret (set_targetKernels remaining km, None).

(** [CommitToBootLoader] updates shim's boot.csv. *)
Definition CommitToBootLoader (km : KernelManager)
  : M Sys (KernelManager * option error) :=
  log_Print [ArgS "Configuring shim fallback loader"];;
  err ← callWriteShimFallbackToFile
          (path_Join (targetDir km)
             ("BOOT" +:+ strings_ToUpper GetEfiArchitecture +:+ ".CSV"))
          (bootEntries km);
  match err return M Sys unit with
  | Some e => log_Printf "Failed to configure shim fallback loader: %v" [ArgE e]
  | None => mret tt
  end;;
  log_Print [ArgS "Configuring UEFI boot device selection"];;
  mret (km, None).

(** The path handed to [WriteShimFallbackToFile]. *)
Definition fallbackFile (km : KernelManager) : string :=
  path_Join (targetDir km) ("BOOT" +:+ strings_ToUpper GetEfiArchitecture +:+ ".CSV").

(** The caller, cmd/nullbootctl [main]: the four calls it makes on the
    manager after the shim is installed. Each error is logged and ends
    the process with [os.Exit(1)]. *)
Inductive Exit : Type :=
| Completed
| Exited (code : nat).

Definition exitOnErr (step : KernelManager → M Sys (KernelManager * option error))
    (next : KernelManager → M Sys (KernelManager * Exit)) (km : KernelManager)
  : M Sys (KernelManager * Exit) :=
  r ← step km;
  match (r : KernelManager * option error).2 return M Sys (KernelManager * Exit) with
  | Some err => log_Print [ArgE err];; mret (r.1, Exited 1)
  | None => next r.1
  end.

Definition main_kernel_steps : KernelManager → M Sys (KernelManager * Exit) :=
  exitOnErr InstallKernels
    (exitOnErr CommitToBootLoader
       (exitOnErr RemoveObsoleteKernels
          (exitOnErr CommitToBootLoader (λ km, mret (km, Completed))))).

(** *** Vocabulary of the statements *)

(** [k] carries a version that parses. *)
Definition parses (k : string) : Prop :=
  ∃ abi v, getKernelABI k = Some abi ∧ NewVersion abi = Ok v.

(** [a] carries a strictly greater version than [b]. *)
Definition newer (a b : string) : bool :=
  match getKernelABI a, getKernelABI b with
  | Some va, Some vb =>
      match NewVersion va, NewVersion vb with
      | Ok x, Ok y => GreaterThan x y
      | _, _ => false
      end
  | _, _ => false
  end.

(** [parses], as a test. *)
Definition parsesb (k : string) : bool :=
  match getKernelABI k with
  | Some abi => match NewVersion abi with Ok _ => true | Err _ => false end
  | None => false
  end.

(** [err] is the error the closure of [readKernels] records for one of
    [names] whose version does not parse. *)
Definition parseError (names : list string) (err : option error) : Prop :=
  ∃ k abi cause,
    err = Some (fmt_Errorf "Could not parse kernel version of %s: %w" [k] cause) ∧
    k ∈ names ∧ getKernelABI k = Some abi ∧ NewVersion abi = Err cause.

(** The names [readKernels] keeps from a directory listing. *)
Definition kernelNames (entries : list string) : list string :=
  List.filter (λ n, strings_HasPrefix n kernelPrefix) entries.

(** The calls and the entries one pass of [InstallKernels] over [sks]
    makes: one [MaybeUpdateFile] per kernel, one entry per call that
    returned no error. *)
Inductive installs (km : KernelManager)
  : list string → list Call → list BootEntry → Prop :=
| installs_nil : installs km [] [] []
| installs_copied sk abi updated sks cs es :
    getKernelABI sk = Some abi →
    installs km sks cs es →
    installs km (sk :: sks)
      (CallMaybeUpdateFile (path_Join (targetDir km) sk) (path_Join (sourceDir km) sk)
         updated None :: cs)
      (bootEntryFor km sk abi :: es)
| installs_failed sk updated e sks cs es :
    installs km sks cs es →
    installs km (sk :: sks)
      (CallMaybeUpdateFile (path_Join (targetDir km) sk) (path_Join (sourceDir km) sk)
         updated (Some e) :: cs)
      es.

(** The tracked target kernels that are not source kernels. *)
Definition obsoleteKernels (km : KernelManager) : list string :=
  List.filter (isObsoleteKernel km) (targetKernels km).

(** Deleting [names] in turn, the attempts returning [errs]. *)
Definition removeCalls (km : KernelManager) (names : list string)
    (errs : list (option error)) : list Call :=
  zip_with (λ tk err, CallRemove (path_Join (targetDir km) tk) err) names errs.

(** The names whose attempt returned an error. *)
Definition failedRemovals (names : list string) (errs : list (option error))
  : list string :=
  (List.filter (λ p, match p.2 with Some _ => true | None => false end)
     (zip names errs)).*1.

End Manager.

(** A call to [MaybeUpdateFile] that returned no error. *)
Definition copySucceeded (c : Call) : bool :=
  match c with
  | CallMaybeUpdateFile _ _ _ None => true
  | _ => false
  end.

(** ** EFI variables: the interface and its two doubles *)

(** [efi.GUID] is a 16-byte array, kept as the 128-bit number it spells;
    [efi.VariableAttributes] is a [uint32]. *)
Definition efi_GUID : Type := N.
Definition VariableAttributes : Type := N.
Definition FileDevicePathMode : Type := N.

Record VariableDescriptor : Type := mkVariableDescriptor {
  Name : string;
  GUID : efi_GUID;
}.

#[global] Instance VariableDescriptor_eq_dec : EqDecision VariableDescriptor.
Proof. solve_decision. Defined.
#[global] Instance VariableDescriptor_countable : Countable VariableDescriptor.
Proof.
  refine (inj_countable' (λ d, (Name d, GUID d))
            (λ p, mkVariableDescriptor p.1 p.2) _).
  by intros [].
Defined.

(** The device path nodes the package builds, with the fields it sets. *)
Inductive DevicePathNode : Type :=
| ACPIDevicePathNode (HID : N)
| PCIDevicePathNode (Device Function : N)
| USBDevicePathNode (ParentPortNumber InterfaceNumber : N).

Definition DevicePath : Type := list DevicePathNode.

(** The methods of interface [EFIVariables]; a nil slice is [[]]. The
    receiver of [SetVariable] is a pointer, so the method returns the
    updated receiver; [NewFileDevicePath] reads the global [appFs]. *)
Class EFIVariables `{Host} (T : Type) : Type := {
  ListVariables : T → list VariableDescriptor * option error;
  GetVariable : T → efi_GUID → string → list Byte.byte * VariableAttributes * option error;
  SetVariable : T → efi_GUID → string → list Byte.byte → VariableAttributes → T * option error;
  NewFileDevicePath : T → FS → string → FileDevicePathMode → DevicePath * option error;
}.

Inductive NoEFIVariables : Type := mkNoEFIVariables.

Record mockEFIVariable : Type := mkMockEFIVariable {
  data : list Byte.byte;
  attrs : VariableAttributes;
}.

(** [store] is [None] for the nil map. *)
Record MockEFIVariables : Type := mkMockEFIVariables {
  store : option (gmap VariableDescriptor mockEFIVariable);
}.

Section EFIVars.
Context `{H : Host}.

#[global] Instance NoEFIVariables_impl : EFIVariables NoEFIVariables := {|
  ListVariables _ := ([], Some ErrVarsUnavailable);
  GetVariable _ guid name := ([], 0%N, Some ErrVarsUnavailable);
  SetVariable v guid name data attrs := (v, Some ErrVarsUnavailable);
  NewFileDevicePath _ _ filepath mode := ([], Some (errors_New "Cannot access"));
|}.

(** Lookup in a Go map; the nil map has no keys. *)
Definition store_lookup (m : MockEFIVariables) (d : VariableDescriptor)
  : option mockEFIVariable :=
  match store m with
  | Some st => st !! d
  | None => None
  end.

Definition Mock_ListVariables (m : MockEFIVariables)
  : list VariableDescriptor * option error :=
  (* [range] visits the keys in an unspecified order *)
  (match store m with
   | Some st => (map_to_list st).*1
   | None => []
   end, None).

Definition Mock_GetVariable (m : MockEFIVariables) (guid : efi_GUID) (name : string)
  : list Byte.byte * VariableAttributes * option error :=
  match store_lookup m (mkVariableDescriptor name guid) with
  | None => ([], 0%N, Some ErrVarNotExist)
  | Some out => (data out, attrs out, None)
  end.

Definition Mock_SetVariable (m : MockEFIVariables) (guid : efi_GUID) (name : string)
    (data : list Byte.byte) (attrs : VariableAttributes)
  : MockEFIVariables * option error :=
  let st := match store m with
            | None => ∅        (* make(map...) *)
            | Some st => st
            end in
  let st := if (List.length data =? 0)%nat
            then delete (mkVariableDescriptor name guid) st
            else <[mkVariableDescriptor name guid := mkMockEFIVariable data attrs]> st in
  (mkMockEFIVariables (Some st), None).

Definition Mock_NewFileDevicePath (m : MockEFIVariables) (fs : FS)
    (filepath : string) (mode : FileDevicePathMode) : DevicePath * option error :=
  match Open fs filepath with
  | Some err => ([], Some err)
  | None =>
      ([ACPIDevicePathNode 0x0a0341d0%N;
        PCIDevicePathNode 0x14%N 0%N;
        USBDevicePathNode 0xb%N 0x1%N], None)
  end.

#[global] Instance MockEFIVariables_impl : EFIVariables MockEFIVariables := {|
  ListVariables := Mock_ListVariables;
  GetVariable := Mock_GetVariable;
  SetVariable := Mock_SetVariable;
  NewFileDevicePath := Mock_NewFileDevicePath;
|}.

End EFIVars.

(** ** An executable [sort.Slice]: the short-slice path of Go 1.16 *)

(** [sort.Slice] of Go 1.16 (the release the CI workflow pins) sorts a
    range of at most twelve elements by one Shell pass with gap 6 followed by
    an insertion sort, and does nothing on fewer than two elements; longer
    ranges are first cut down by quicksort partitioning, which is not
    reproduced here: [quickSort_func] below runs the short path whatever the
    length. Indices out of range panic, as slice indexing does. *)
Module GoSort.
Section WithLess.
Context {A St : Type} (less : A → A → M St bool).

(** [data.Less(i, j)]: the closure reads the slice at [i] and [j]. *)
Definition Less (l : list A) (i j : nat) : M St bool :=
  match l !! i, l !! j with
  | Some x, Some y => less x y
  | _, _ => panic
  end.

(** [data.Swap(i, j)]. *)
Definition Swap (l : list A) (i j : nat) : M St (list A) :=
  match l !! i, l !! j with
  | Some x, Some y => mret (<[i := y]> (<[j := x]> l))
  | _, _ => panic
  end.

(** [for i := from; i < from + count; i++ { body }]. *)
Fixpoint for_range (from count : nat) (body : nat → list A → M St (list A))
    (l : list A) : M St (list A) :=
  match count with
  | O => mret l
  | S c => l' ← body from l; for_range (S from) c body l'
  end.

(** [for j := i; j > 0 && data.Less(j, j-1); j-- { data.Swap(j, j-1) }]. *)
Fixpoint insertion_inner (j : nat) (l : list A) : M St (list A) :=
  match j with
  | O => mret l
  | S j' =>
      b ← Less l (S j') j';
      if b : bool then l' ← Swap l (S j') j'; insertion_inner j' l'
      else mret l
  end.

(** [insertionSort_func(data, 0, len)]. *)
Definition insertionSort_func (l : list A) : M St (list A) :=
  for_range 1 (List.length l - 1) insertion_inner l.

(** [if data.Less(i, i-6) { data.Swap(i, i-6) }]. *)
Definition shell_step (i : nat) (l : list A) : M St (list A) :=
  b ← Less l i (i - 6);
  if b : bool then Swap l i (i - 6) else mret l.

(** The tail of [quickSort_func(data, 0, len, maxDepth)]. *)
Definition quickSort_func (l : list A) : M St (list A) :=
  if (1 <? List.length l)%nat then
    l' ← for_range 6 (List.length l - 6) shell_step l;
    insertionSort_func l'
  else mret l.

(** What the inner loop computes, on the reversed prefix: [x] moves left
    past every element it is [less] than. *)
Fixpoint insert_rev (R : A → A → bool) (x : A) (rp : list A) : list A :=
  match rp with
  | [] => [x]
  | y :: rp' => if R x y then y :: insert_rev R x rp' else x :: y :: rp'
  end.
End WithLess.
End GoSort.

(** [sort.Slice(x, less)] on the elements of [x]. *)
#[global] Instance GoSort_Slice : SortSlice := λ A S less l, GoSort.quickSort_func less l.

(** ** An executable version library: Debian package versions *)

(** Modelled from the spec: the go-deb-version package is a dependency that
    is not part of the repository. The spec describes what it provides: a
    version string in the package-version grammar (epoch, upstream version,
    revision) and a comparison by numeric and alphanumeric segments rather
    than by the bytes of the string. The grammar and the comparison below
    are those of Debian policy: an optional decimal epoch before the first
    colon, the revision after the last hyphen, an upstream version that
    starts with a digit; each part is compared as alternating non-digit and
    digit segments, a tilde sorting before the end of the part. *)
Module Deb.

Definition is_digit (c : ascii) : bool :=
  let n := nat_of_ascii c in (48 <=? n)%nat && (n <=? 57)%nat.
Definition is_alpha (c : ascii) : bool :=
  let n := nat_of_ascii c in
  ((65 <=? n)%nat && (n <=? 90)%nat) || ((97 <=? n)%nat && (n <=? 122)%nat).

Record version : Type := mkVersion {
  epoch : N;
  upstreamVersion : string;
  debianRevision : string;
}.

(** Split at the first, respectively the last, occurrence of [sep]. *)
Fixpoint split_first (sep : ascii) (s : string) : option (string * string) :=
  match s with
  | EmptyString => None
  | String c s' =>
      if Ascii.eqb c sep then Some (EmptyString, s')
      else match split_first sep s' with
           | Some (a, b) => Some (String c a, b)
           | None => None
           end
  end.
Fixpoint split_last (sep : ascii) (s : string) : option (string * string) :=
  match s with
  | EmptyString => None
  | String c s' =>
      match split_last sep s' with
      | Some (a, b) => Some (String c a, b)
      | None => if Ascii.eqb c sep then Some (EmptyString, s') else None
      end
  end.

Definition number (ds : list ascii) : N :=
  fold_left (λ acc d, (10 * acc + N.of_nat (nat_of_ascii d - 48))%N) ds 0%N.

Definition decimal (s : string) : option N :=
  let ds := list_ascii_of_string s in
  match ds with
  | [] => None
  | _ => if forallb is_digit ds then Some (number ds) else None
  end.

Definition allowed (symbols : string) (c : ascii) : bool :=
  is_digit c || is_alpha c || existsb (Ascii.eqb c) (list_ascii_of_string symbols).

Definition parse (s : string) : result version :=
  let '(ep, rest) := match split_first ":" s with
                     | None => (Some 0%N, s)
                     | Some (e, r) => (decimal e, r)
                     end in
  match ep with
  | None => Err (errors_New "epoch parse error")
  | Some e =>
      let '(up, rev) := match split_last "-" rest with
                        | None => (rest, EmptyString)
                        | Some (u, r) => (u, r)
                        end in
      match up with
      | EmptyString => Err (errors_New "upstream_version is empty")
      | String c _ =>
          if negb (is_digit c) then
            Err (errors_New "upstream_version must start with digit")
          else if negb (forallb (allowed ".-+~:") (list_ascii_of_string up)) then
            Err (errors_New "upstream_version includes invalid character")
          else if negb (forallb (allowed "+.~") (list_ascii_of_string rev)) then
            Err (errors_New "debian_revision includes invalid character")
          else Ok (mkVersion e up rev)
      end
  end.

(** Segments of a part: a run of non-digits followed by a number. *)
Inductive item : Type :=
| NonDigit (cs : list ascii)
| Number (ds : list ascii).

Fixpoint items (s : string) : list item :=
  match s with
  | EmptyString => []
  | String c s' =>
      match is_digit c, items s' with
      | true, Number ds :: r => Number (c :: ds) :: r
      | true, r => Number [c] :: r
      | false, NonDigit cs :: r => NonDigit (c :: cs) :: r
      | false, r => NonDigit [c] :: r
      end
  end.

Fixpoint segments (its : list item) : list (list ascii * N) :=
  match its with
  | [] => []
  | NonDigit cs :: Number ds :: r => (cs, number ds) :: segments r
  | NonDigit cs :: r => (cs, 0%N) :: segments r
  | Number ds :: r => ([], number ds) :: segments r
  end.

(** The weight of a non-digit byte: tilde before the end of the part,
    letters before the other symbols. *)
Definition order (c : ascii) : Z :=
  if Ascii.eqb c "~" then (-1)%Z
  else if is_alpha c then Z.of_nat (nat_of_ascii c)
  else (Z.of_nat (nat_of_ascii c) + 256)%Z.

Fixpoint cmp_nondigit (a b : list ascii) : comparison :=
  match a, b with
  | [], [] => Eq
  | [], d :: _ => Z.compare 0 (order d)
  | c :: _, [] => Z.compare (order c) 0
  | c :: a', d :: b' =>
      match Z.compare (order c) (order d) with
      | Eq => cmp_nondigit a' b'
      | r => r
      end
  end.

Definition cmp_segment (x y : list ascii * N) : comparison :=
  match cmp_nondigit x.1 y.1 with
  | Eq => N.compare x.2 y.2
  | r => r
  end.

Fixpoint cmp_end (a : list (list ascii * N)) : comparison :=
  match a with
  | [] => Eq
  | x :: a' => match cmp_segment x ([], 0%N) with Eq => cmp_end a' | r => r end
  end.

Fixpoint cmp_segments (a b : list (list ascii * N)) : comparison :=
  match a, b with
  | [], _ => CompOpp (cmp_end b)
  | _ :: _, [] => cmp_end a
  | x :: a', y :: b' =>
      match cmp_segment x y with Eq => cmp_segments a' b' | r => r end
  end.

Definition cmp_part (s1 s2 : string) : comparison :=
  cmp_segments (segments (items s1)) (segments (items s2)).

Definition Compare (v1 v2 : version) : comparison :=
  match N.compare (epoch v1) (epoch v2) with
  | Eq => match cmp_part (upstreamVersion v1) (upstreamVersion v2) with
          | Eq => cmp_part (debianRevision v1) (debianRevision v2)
          | r => r
          end
  | r => r
  end.

Definition greater (v1 v2 : version) : bool :=
  match Compare v1 v2 with Gt => true | _ => false end.

End Deb.

(** Modelled from the spec: the version library as [Deb] has it. *)
#[global] Instance Deb_Version : DebVersion := {|
  Version := Deb.version;
  NewVersion := Deb.parse;
  GreaterThan := Deb.greater;
|}.

(** ** An executable host: an in-memory file system with injected faults *)

Module MemFs.

Record t : Type := mk {
  dirs : list string;                         (* directories that can be listed *)
  files : list string;                        (* paths of the regular files *)
  faulty : list string;                       (* paths on which I/O fails *)
  written : list (string * list BootEntry);   (* contents of fallback files *)
}.

Definition Join (dir name : string) : string := dir +:+ "/" +:+ name.

(** The name of [file] inside [dir], when it is directly inside. *)
Definition name_in (dir file : string) : option string :=
  if String.prefix (dir +:+ "/") file then
    match string_from (String.length dir + 1) file with
    | Some name =>
        if existsb (Ascii.eqb "/") (list_ascii_of_string name) then None else Some name
    | None => None
    end
  else None.

Definition ReadDir (fs : t) (dir : string) : result (list string) :=
  if bool_decide (dir ∈ dirs fs)
  then Ok (omap (name_in dir) (files fs))
  else Err (errors_New "file does not exist").

Definition Remove (fs : t) (name : string) : t * option error :=
  if bool_decide (name ∈ faulty fs) then (fs, Some (errors_New "input/output error"))
  else if bool_decide (name ∈ files fs) then
    (mk (dirs fs) (List.filter (λ f, negb (String.eqb f name)) (files fs))
        (faulty fs) (written fs), None)
  else (fs, Some (errors_New "file does not exist")).

Definition Open (fs : t) (name : string) : option error :=
  if bool_decide (name ∈ faulty fs) then Some (errors_New "input/output error")
  else if bool_decide (name ∈ files fs) then None
  else Some (errors_New "file does not exist").

Definition MaybeUpdateFile (fs : t) (dst src : string) : t * (bool * option error) :=
  if bool_decide (src ∈ faulty fs) || bool_decide (dst ∈ faulty fs)
  then (fs, (false, Some (errors_New "input/output error")))
  else if negb (bool_decide (src ∈ files fs))
  then (fs, (false, Some (errors_New "file does not exist")))
  else if bool_decide (dst ∈ files fs) then (fs, (false, None))
  else (mk (dirs fs) (files fs ++ [dst]) (faulty fs) (written fs), (true, None)).

Definition WriteShimFallbackToFile (fs : t) (name : string)
    (entries : list BootEntry) : t * option error :=
  if bool_decide (name ∈ faulty fs) then (fs, Some (errors_New "input/output error"))
  else (mk (dirs fs)
           (if bool_decide (name ∈ files fs) then files fs else files fs ++ [name])
           (faulty fs)
           ((name, entries) :: List.filter (λ w, negb (String.eqb w.1 name)) (written fs)),
        None).

(** ASCII upper case. *)
Definition upper (c : ascii) : ascii :=
  let n := nat_of_ascii c in
  if (97 <=? n)%nat && (n <=? 122)%nat then ascii_of_nat (n - 32) else c.
Fixpoint ToUpper (s : string) : string :=
  match s with
  | EmptyString => EmptyString
  | String c s' => String (upper c) (ToUpper s')
  end.

End MemFs.

(** The host of the examples: [MemFs], the architecture x64. *)
#[global] Instance Mem_Host : Host := {|
  FS := MemFs.t;
  ReadDir := MemFs.ReadDir;
  Remove := MemFs.Remove;
  Open := MemFs.Open;
  MaybeUpdateFile := MemFs.MaybeUpdateFile;
  WriteShimFallbackToFile := MemFs.WriteShimFallbackToFile;
  GetEfiArchitecture := "x64";
  path_Join := MemFs.Join;
  strings_ToUpper := MemFs.ToUpper;
|}.

(** [sortable], as a test. *)
Definition sortableb {A} (R : A → A → bool) (l : list A) : bool :=
  forallb (λ a, negb (R a a)) l &&
  forallb (λ a, forallb (λ b, forallb (λ c,
    implb (R a b && R b c) (R a c) &&
    implb (negb (R a b) && negb (R b c)) (negb (R a c))) l) l) l.

(** Any two distinct elements of [l] are ordered one way or the other. *)
Definition total_on {A} (R : A → A → bool) (l : list A) : Prop :=
  ∀ a b, a ∈ l → b ∈ l → a ≠ b → R a b = true ∨ R b a = true.

(** ** Fixtures *)

(** File systems and managers in the shape of the package's tests, on the
    executable host, version library and sort. *)
Module Fixture.

Definition source : string := "/usr/lib/linux".
Definition target : string := "/boot/efi/EFI/ubuntu".

Definition sys (files faulty : list string) : Sys :=
  mkSys (MemFs.mk [source; target] files faulty []) [] [].

Definition manager (sourceKernels targetKernels : list string) : KernelManager :=
  mkKernelManager source target sourceKernels targetKernels [] "root=magic".

(** Three kernels whose version order is not the order of their names. *)
Definition three_kernels : list string :=
  ["kernel.efi-5.4.0-10"; "kernel.efi-5.4.0-100"; "kernel.efi-5.4.0-9"].
Definition sys_three : Sys :=
  sys (map (MemFs.Join source) ("vmlinuz" :: three_kernels)) [].

(** Two spellings of one version. *)
Definition sys_equal_versions : Sys :=
  sys (map (MemFs.Join source) ["kernel.efi-5.4.0-09"; "kernel.efi-5.4.0-9"]) [].

(** One kernel, whose version does not parse. *)
Definition sys_single_unparsable : Sys :=
  sys [MemFs.Join source "kernel.efi-garbage"] [].

(** The same kernel next to a well-formed one. *)
Definition sys_pair_unparsable : Sys :=
  sys [MemFs.Join source "kernel.efi-5.4.0-10"; MemFs.Join source "kernel.efi-garbage"] [].

(** Two source kernels, nothing installed yet. *)
Definition two_kernels : list string := ["kernel.efi-5.4.0-10"; "kernel.efi-5.4.0-9"].
Definition sys_two : Sys := sys (map (MemFs.Join source) two_kernels) [].

(** The same, the copy of the first kernel failing. *)
Definition sys_two_faulty : Sys :=
  sys (map (MemFs.Join source) two_kernels) [MemFs.Join target "kernel.efi-5.4.0-10"].

(** One source kernel, installed, next to two obsolete target kernels; with
    and without a fault on the older of the two. *)
Definition km_obsolete : KernelManager :=
  manager ["kernel.efi-5.4.0-10"]
          ["kernel.efi-5.4.0-10"; "kernel.efi-5.4.0-9"; "kernel.efi-5.4.0-8"].
Definition files_obsolete : list string :=
  MemFs.Join source "kernel.efi-5.4.0-10"
  :: map (MemFs.Join target) ["kernel.efi-5.4.0-10"; "kernel.efi-5.4.0-9"; "kernel.efi-5.4.0-8"].
Definition sys_obsolete : Sys := sys files_obsolete [].
Definition sys_obsolete_faulty : Sys :=
  sys files_obsolete [MemFs.Join target "kernel.efi-5.4.0-9"].

(** The fallback file cannot be written. *)
Definition sys_csv_faulty : Sys := sys [] [MemFs.Join target "BOOTX64.CSV"].

End Fixture.

(** ** Vocabulary of the further properties *)

(** ** Vocabulary of the further properties *)

Section Effects.
Context `{H : Host}.

(** The manager [NewKernelManager] starts from. *)
Definition emptyManager : KernelManager :=
  mkKernelManager "/usr/lib/linux" "/boot/efi/EFI/ubuntu" [] [] [] "root=magic".

(** The entry of source kernel [sk], when its name is long enough. *)
Definition entryOf (km : KernelManager) (sk : string) : option BootEntry :=
  bootEntryFor km sk <$> getKernelABI sk.

(** The lines [InstallKernels] logs for source kernel [sk] whose copy step
    was call [c]. *)
Definition installLog (sk : string) (c : Call) : list LogLine :=
  match c with
  | CallMaybeUpdateFile _ _ updated err =>
      match err with
      | Some e => [Printf "Could not install kernel %s: %v" [ArgS sk; ArgE e]]
      | None =>
          if updated then [Printf "Installed or updated kernel %s" [ArgS sk]] else []
      end
  | _ => []
  end.
Definition installLogs (sks : list string) (cs : list Call) : list LogLine :=
  concat (zip_with installLog sks cs).

(** Deleting [names] of the target directory in turn: what each [Remove]
    returns, and the file system left. *)
Fixpoint removeResults (km : KernelManager) (names : list string) (f : FS)
  : list (option error) * FS :=
  match names with
  | [] => ([], f)
  | tk :: rest =>
      let '(f', err) := Remove f (path_Join (targetDir km) tk) in
      let '(errs, f'') := removeResults km rest f' in
      (err :: errs, f'')
  end.

(** The line [RemoveObsoleteKernels] logs for each attempt. *)
Definition removeLogs (names : list string) (errs : list (option error))
  : list LogLine :=
  zip_with (λ tk err,
    match err with
    | Some e => Printf "Could not remove kernel %s: %v" [ArgS tk; ArgE e]
    | None => Printf "Removed kernel %s" [ArgS tk]
    end) names errs.

End Effects.

(** Further fixtures. *)
Module MoreFixtures.
Import Fixture.

(** The target directory is missing. *)
Definition sys_no_target : Sys :=
  mkSys (MemFs.mk [source] [MemFs.Join source "kernel.efi-5.4.0-10"] [] []) [] [].

(** Three source kernels, two of them installed next to an older one. *)
Definition target_kernels : list string :=
  ["kernel.efi-5.4.0-10"; "kernel.efi-5.4.0-8"; "kernel.efi-5.4.0-9"].
Definition sys_both : Sys :=
  sys (map (MemFs.Join source) three_kernels ++ map (MemFs.Join target) target_kernels) [].

(** A well-formed source directory, a target directory holding a name whose
    version does not parse. *)
Definition sys_target_unparsable : Sys :=
  sys (map (MemFs.Join source) two_kernels
       ++ map (MemFs.Join target) ["kernel.efi-5.4.0-9"; "kernel.efi-garbage"]) [].

(** A source kernel whose name is shorter than the prefix. *)
Definition sys_short_name : Sys := sys [MemFs.Join source "k"] [].

(** All target kernels are source kernels. *)
Definition km_current : KernelManager := manager two_kernels ["kernel.efi-5.4.0-9"].

End MoreFixtures.

(** * Properties *)

(** ** Running monadic code *)

Lemma bind_Some {S A B} (m : M S A) (f : A → M S B) s a s' :
  m s = Some (a, s') → (m ≫= f) s = f a s'.
Proof. intros Hm. unfold mbind, M_bind. by rewrite Hm. Qed.

Lemma bind_ret {S A B} (a : A) (f : A → M S B) s : (mret a ≫= f) s = f a s.
Proof. reflexivity. Qed.

Lemma bind_inv {S A B} (m : M S A) (f : A → M S B) s r :
  (m ≫= f) s = Some r → ∃ a s', m s = Some (a, s') ∧ f a s' = Some r.
Proof.
  unfold mbind, M_bind. destruct (m s) as [[a s']|] eqn:Hm; [|done].
  intros Hf. by exists a, s'.
Qed.

(** ** The short path of [sort.Slice] sorts *)

Lemma swap_head_Permutation {A} (l : list A) j x y :
  l !! j = Some y → y :: <[j := x]> l ≡ₚ x :: l.
Proof.
  revert j. induction l as [|b l IH]; intros [|j] Hj; simplify_eq/=.
  - apply perm_swap.
  - rewrite perm_swap. rewrite (IH _ Hj). apply perm_swap.
Qed.

Lemma swap_Permutation {A} (l : list A) i j x y :
  l !! i = Some x → l !! j = Some y → <[i := y]> (<[j := x]> l) ≡ₚ l.
Proof.
  revert i j. induction l as [|a l IH]; intros [|i] [|j] Hi Hj; simplify_eq/=.
  - done.
  - by apply swap_head_Permutation.
  - by apply swap_head_Permutation.
  - f_equiv. by apply IH.
Qed.

Lemma StronglySorted_reverse {A} (P : A → A → Prop) (l : list A) :
  StronglySorted P l → StronglySorted (flip P) (reverse l).
Proof.
  induction 1 as [|x l Hl IH Hx]; [constructor|].
  rewrite reverse_cons. apply StronglySorted_app; split_and!.
  - intros a b Ha Hb. unfold flip. apply list_elem_of_singleton in Hb as ->.
    rewrite elem_of_reverse in Ha. rewrite Forall_forall in Hx. by apply Hx.
  - exact IH.
  - repeat constructor.
Qed.

Section GoSortProofs.
Context {A St : Type} (less : A → A → M St bool) (R : A → A → bool) (l0 : list A).
Hypothesis less_pure : ∀ a b s, a ∈ l0 → b ∈ l0 → less a b s = Some (R a b, s).
Hypothesis R_sortable : sortable R l0.

Lemma Less_pure (l : list A) i j x y s :
  l !! i = Some x → l !! j = Some y → x ∈ l0 → y ∈ l0 →
  GoSort.Less less l i j s = Some (R x y, s).
Proof. intros Hi Hj Hx Hy. unfold GoSort.Less. rewrite Hi, Hj. by apply less_pure. Qed.

Lemma Swap_run (l : list A) i j x y (s : St) :
  l !! i = Some x → l !! j = Some y →
  GoSort.Swap l i j s = Some (<[i := y]> (<[j := x]> l), s).
Proof. intros Hi Hj. unfold GoSort.Swap. by rewrite Hi, Hj. Qed.

Lemma insert_rev_length x rp :
  List.length (GoSort.insert_rev R x rp) = S (List.length rp).
Proof. induction rp as [|y rp IH]; simpl; [done|]. destruct (R x y); simpl; lia. Qed.

Lemma insert_rev_Permutation x rp : GoSort.insert_rev R x rp ≡ₚ x :: rp.
Proof.
  induction rp as [|y rp IH]; simpl; [done|].
  destruct (R x y); [|done]. rewrite IH. apply perm_swap.
Qed.

Lemma insertion_inner_run (rp : list A) x q s :
  (∀ z, z ∈ x :: rp → z ∈ l0) →
  GoSort.insertion_inner less (List.length rp) (reverse rp ++ x :: q) s
  = Some (reverse (GoSort.insert_rev R x rp) ++ q, s).
Proof.
  revert q. induction rp as [|y rp IH]; intros q Hin; [done|].
  assert (Hx : x ∈ l0) by (apply Hin; (set_unfold; tauto)).
  assert (Hy : y ∈ l0) by (apply Hin; (set_unfold; tauto)).
  cbn [List.length GoSort.insertion_inner GoSort.insert_rev].
  rewrite reverse_cons, <- app_assoc. cbn [app].
  assert (Hly : (reverse rp ++ y :: x :: q) !! List.length rp = Some y).
  { rewrite <- (length_reverse rp). apply list_lookup_middle. done. }
  assert (Hlx : (reverse rp ++ y :: x :: q) !! S (List.length rp) = Some x).
  { rewrite <- (length_reverse rp).
    rewrite lookup_app_r by lia.
    replace (S (List.length (reverse rp)) - List.length (reverse rp)) with 1 by lia. done. }
  erewrite bind_Some by (eapply Less_pure; eauto).
  destruct (R x y) eqn:HR.
  - erewrite bind_Some by (eapply Swap_run; eauto).
    assert (Hsw : <[S (List.length rp) := y]> (<[List.length rp := x]> (reverse rp ++ y :: x :: q))
                  = reverse rp ++ x :: y :: q).
    { rewrite <- (length_reverse rp).
      rewrite insert_app_r_alt by lia. rewrite Nat.sub_diag. cbn [insert list_insert].
      rewrite insert_app_r_alt by lia.
      replace (S (List.length (reverse rp)) - List.length (reverse rp)) with 1 by lia. done. }
    rewrite Hsw. rewrite IH by (intros z Hmem; apply Hin; (set_unfold; tauto)).
    by rewrite reverse_cons, <- app_assoc.
  - rewrite !reverse_cons, <- !app_assoc. done.
Qed.

Lemma insertion_outer_run (rest rp : list A) s :
  (∀ z, z ∈ rp ++ rest → z ∈ l0) →
  GoSort.for_range (List.length rp) (List.length rest) (GoSort.insertion_inner less)
    (reverse rp ++ rest) s
  = Some (reverse (fold_left (λ acc x, GoSort.insert_rev R x acc) rest rp), s).
Proof.
  revert rp. induction rest as [|x rest IH]; intros rp Hin.
  - cbn. by rewrite app_nil_r.
  - cbn [List.length GoSort.for_range fold_left].
    erewrite bind_Some by (apply insertion_inner_run; intros z Hmem; apply Hin; (set_unfold; tauto)).
    rewrite <- (insert_rev_length x rp). apply IH.
    intros z Hmem. apply Hin. apply elem_of_app in Hmem as [Hmem|Hmem]; [|(set_unfold; tauto)].
    rewrite insert_rev_Permutation in Hmem. (set_unfold; tauto).
Qed.

Lemma insertionSort_run (l : list A) s :
  (∀ z, z ∈ l → z ∈ l0) →
  GoSort.insertionSort_func less l s
  = Some (match l with
          | [] => []
          | x :: rest => reverse (fold_left (λ acc x, GoSort.insert_rev R x acc) rest [x])
          end, s).
Proof.
  intros Hin. destruct l as [|x rest]; [done|].
  unfold GoSort.insertionSort_func.
  replace (List.length (x :: rest) - 1) with (List.length rest) by (simpl; lia).
  by apply (insertion_outer_run rest [x]).
Qed.

Lemma shell_pass_run count from (l : list A) s :
  (count ≠ 0 → from + count ≤ List.length l) → 6 ≤ from →
  (∀ z, z ∈ l → z ∈ l0) →
  ∃ l', GoSort.for_range from count (GoSort.shell_step less) l s = Some (l', s) ∧ l' ≡ₚ l.
Proof.
  revert from l. induction count as [|c IH]; intros from l Hlen Hfrom Hin.
  - by exists l.
  - cbn [GoSort.for_range].
    destruct (lookup_lt_is_Some_2 l from) as [x Hx]; [lia|].
    destruct (lookup_lt_is_Some_2 l (from - 6)) as [y Hy]; [lia|].
    assert (Hstep : ∃ l1 : list A, GoSort.shell_step less from l s = Some (l1, s) ∧ l1 ≡ₚ l).
    { unfold GoSort.shell_step.
      erewrite bind_Some by (eapply Less_pure; eauto using list_elem_of_lookup_2).
      destruct (R x y).
      - erewrite Swap_run by eauto. eexists; split; [done|]. by apply swap_Permutation.
      - by exists l. }
    destruct Hstep as (l1 & Hrun & Hperm).
    erewrite bind_Some by exact Hrun.
    destruct (IH (S from) l1) as (l2 & Hrun2 & Hperm2).
    + intros _. rewrite Hperm. lia.
    + lia.
    + intros z Hmem. apply Hin. by rewrite <- Hperm.
    + exists l2. split; [done|]. by rewrite Hperm2.
Qed.

Lemma insert_rev_sorted x rp :
  (∀ z, z ∈ x :: rp → z ∈ l0) →
  StronglySorted (λ a b, R a b = false) rp →
  StronglySorted (λ a b, R a b = false) (GoSort.insert_rev R x rp).
Proof.
  intros Hin. induction 1 as [|y rp Hrp IH Hy]; simpl.
  - repeat constructor.
  - assert (Hx0 : x ∈ l0) by (apply Hin; (set_unfold; tauto)).
    assert (Hy0 : y ∈ l0) by (apply Hin; (set_unfold; tauto)).
    destruct (R x y) eqn:HR.
    + constructor.
      * apply IH. intros z Hmem. apply Hin. (set_unfold; tauto).
      * apply Forall_forall. intros z Hmem.
        rewrite insert_rev_Permutation in Hmem. apply elem_of_cons in Hmem as [->|Hmem].
        -- destruct (R y x) eqn:HR'; [|done].
           pose proof (sortable_trans _ _ R_sortable x y x Hx0 Hy0 Hx0 HR HR') as Hxx.
           by rewrite (sortable_irrefl _ _ R_sortable x Hx0) in Hxx.
        -- rewrite Forall_forall in Hy. by apply Hy.
    + constructor; [by constructor|].
      constructor; [done|].
      apply Forall_forall. intros z Hmem.
      rewrite Forall_forall in Hy.
      apply (sortable_negtrans _ _ R_sortable x y z); auto.
      apply Hin. (set_unfold; tauto).
Qed.

Lemma fold_insert_rev_Permutation rest rp :
  fold_left (λ acc x, GoSort.insert_rev R x acc) rest rp ≡ₚ rp ++ rest.
Proof.
  revert rp. induction rest as [|x rest IH]; intros rp; simpl.
  - by rewrite app_nil_r.
  - rewrite IH, insert_rev_Permutation. by rewrite <- Permutation_middle.
Qed.

Lemma fold_insert_rev_sorted rest rp :
  (∀ z, z ∈ rp ++ rest → z ∈ l0) →
  StronglySorted (λ a b, R a b = false) rp →
  StronglySorted (λ a b, R a b = false)
    (fold_left (λ acc x, GoSort.insert_rev R x acc) rest rp).
Proof.
  revert rp. induction rest as [|x rest IH]; intros rp Hin Hs; simpl; [done|].
  apply IH.
  - intros z Hmem. apply Hin. rewrite insert_rev_Permutation in Hmem. (set_unfold; tauto).
  - apply insert_rev_sorted; [|done]. intros z Hmem. apply Hin. (set_unfold; tauto).
Qed.

Lemma quickSort_func_sorts s :
  ∃ l', GoSort.quickSort_func less l0 s = Some (l', s) ∧ l0 ≡ₚ l' ∧
        StronglySorted (λ x y, R y x = false) l'.
Proof.
  unfold GoSort.quickSort_func.
  destruct (1 <? List.length l0)%nat eqn:Hlen.
  - destruct (shell_pass_run (List.length l0 - 6) 6 l0 s) as (l1 & Hrun & Hperm);
      [lia|lia|done|].
    erewrite bind_Some by exact Hrun.
    rewrite insertionSort_run by (intros z Hmem; by rewrite <- Hperm).
    eexists; split; [done|].
    destruct l1 as [|x rest].
    { split; [by rewrite Hperm|constructor]. }
    split.
    + rewrite reverse_Permutation, fold_insert_rev_Permutation. by rewrite <- Hperm.
    + apply (StronglySorted_reverse (λ a b, R a b = false)).
      apply fold_insert_rev_sorted.
      * intros z Hmem. by rewrite <- Hperm.
      * repeat constructor.
  - exists l0. split; [done|]. split; [done|].
    apply Nat.ltb_ge in Hlen.
    destruct l0 as [|x [|y l]]; simpl in Hlen; try lia; repeat constructor.
Qed.
End GoSortProofs.

#[global] Instance GoSort_laws : SortSliceLaws GoSort_Slice.
Proof.
  split.
  - intros A S less l st Hlen. unfold sort_Slice, GoSort_Slice, GoSort.quickSort_func.
    destruct (1 <? List.length l)%nat eqn:E; [apply Nat.ltb_lt in E; lia|done].
  - intros A S less R l st Hpure Hs. by apply quickSort_func_sorts.
Qed.

(** ** The short path of [sort.Slice] with a [less] that records failures *)

(** [less] never panics on the elements of [l0]; it may raise a flag in its
    state, never lowers it, and raises it whenever one of its arguments is
    [bad]. On two elements or more, the flag is up after the sort as soon as
    one element is [bad]: every element is compared at least once. *)
Section GoSortDetects.
Context {A St : Type} (less : A → A → M St bool) (l0 : list A).
Context (bad : A → Prop) (flag : St → Prop).
Hypothesis less_runs : ∀ a b st, a ∈ l0 → b ∈ l0 →
  ∃ r st', less a b st = Some (r, st') ∧ (flag st → flag st') ∧ (bad a ∨ bad b → flag st').

Lemma Less_runs (l : list A) i j x y st :
  l !! i = Some x → l !! j = Some y → x ∈ l0 → y ∈ l0 →
  ∃ r st', GoSort.Less less l i j st = Some (r, st') ∧
           (flag st → flag st') ∧ (bad x ∨ bad y → flag st').
Proof. intros Hi Hj Hx Hy. unfold GoSort.Less. rewrite Hi, Hj. by apply less_runs. Qed.

Lemma insertion_inner_detects (rp : list A) x q st :
  (∀ z, z ∈ x :: rp → z ∈ l0) →
  ∃ p' st',
    GoSort.insertion_inner less (List.length rp) (reverse rp ++ x :: q) st
    = Some (p' ++ q, st') ∧
    p' ≡ₚ x :: rp ∧ (flag st → flag st') ∧
    (∀ y rp', rp = y :: rp' → bad x ∨ bad y → flag st').
Proof.
  revert q st. induction rp as [|y rp IH]; intros q st Hin.
  - exists [x], st. by split_and!.
  - assert (Hx : x ∈ l0) by (apply Hin; set_unfold; tauto).
    assert (Hy : y ∈ l0) by (apply Hin; set_unfold; tauto).
    cbn [List.length GoSort.insertion_inner].
    rewrite reverse_cons, <- app_assoc. cbn [app].
    assert (Hly : (reverse rp ++ y :: x :: q) !! List.length rp = Some y).
    { rewrite <- (length_reverse rp). by apply list_lookup_middle. }
    assert (Hlx : (reverse rp ++ y :: x :: q) !! S (List.length rp) = Some x).
    { rewrite <- (length_reverse rp). rewrite lookup_app_r by lia.
      by replace (S (List.length (reverse rp)) - List.length (reverse rp)) with 1 by lia. }
    destruct (Less_runs _ _ _ x y st Hlx Hly Hx Hy) as (r & st1 & Hless & Hmono & Hbad).
    erewrite bind_Some by exact Hless.
    destruct r.
    + erewrite bind_Some by (by eapply Swap_run).
      assert (Hsw : <[S (List.length rp) := y]>
                      (<[List.length rp := x]> (reverse rp ++ y :: x :: q))
                    = reverse rp ++ x :: y :: q).
      { rewrite <- (length_reverse rp).
        rewrite insert_app_r_alt by lia. rewrite Nat.sub_diag. cbn [insert list_insert].
        rewrite insert_app_r_alt by lia.
        by replace (S (List.length (reverse rp)) - List.length (reverse rp)) with 1 by lia. }
      rewrite Hsw.
      destruct (IH (y :: q) st1) as (p' & st2 & Hrun & Hperm & Hmono2 & _).
      { intros z Hmem. apply Hin. set_unfold; tauto. }
      exists (p' ++ [y]), st2. split_and!.
      * by rewrite Hrun, <- app_assoc.
      * rewrite Hperm. rewrite <- Permutation_cons_append. by rewrite perm_swap.
      * auto.
      * intros y' rp' Heq Hb. simplify_eq. auto.
    + exists (reverse rp ++ [y; x]), st1. split_and!.
      * by rewrite <- app_assoc.
      * rewrite reverse_Permutation.
        rewrite (Permutation_app_comm rp). cbn. by rewrite perm_swap.
      * done.
      * intros y' rp' Heq Hb. simplify_eq. auto.
Qed.

Lemma insertion_outer_detects (rest rp : list A) st :
  rp ≠ [] → (∀ z, z ∈ rp ++ rest → z ∈ l0) →
  ∃ l' st',
    GoSort.for_range (List.length rp) (List.length rest) (GoSort.insertion_inner less)
      (reverse rp ++ rest) st = Some (l', st') ∧
    l' ≡ₚ rp ++ rest ∧ (flag st → flag st') ∧
    (∀ x, x ∈ rest → bad x → flag st') ∧
    (rest ≠ [] → ∀ y, head rp = Some y → bad y → flag st').
Proof.
  revert rp st. induction rest as [|x rest IH]; intros rp st Hne Hin.
  - exists (reverse rp ++ []), st. split_and!; try done.
    + by rewrite reverse_Permutation.
    + by intros x ?%elem_of_nil.
  - cbn [List.length GoSort.for_range].
    destruct (insertion_inner_detects rp x rest st) as (p' & st1 & Hrun & Hperm & Hmono & Hbad).
    { intros z Hmem. apply Hin. set_unfold; tauto. }
    erewrite bind_Some by exact Hrun.
    assert (Hlen : List.length p' = S (List.length rp)) by by rewrite Hperm.
    destruct (IH (reverse p') st1) as (l' & st2 & Hrun2 & Hperm2 & Hmono2 & Hrest & _).
    { intros Heq. rewrite <- (reverse_involutive p'), Heq in Hlen. done. }
    { intros z Hmem. apply Hin. rewrite reverse_Permutation, Hperm in Hmem.
      set_unfold; tauto. }
    rewrite length_reverse, reverse_involutive, Hlen in Hrun2.
    exists l', st2. split_and!.
    + done.
    + rewrite Hperm2, reverse_Permutation, Hperm. cbn. by rewrite Permutation_middle.
    + auto.
    + intros z [->|Hmem]%elem_of_cons Hz.
      * destruct rp as [|y rp']; [done|]. apply Hmono2, (Hbad y rp'); auto.
      * by apply (Hrest z).
    + intros _ y Hy Hby. destruct rp as [|y' rp']; simplify_eq/=.
      apply Hmono2, (Hbad y rp'); auto.
Qed.

Lemma shell_pass_detects count from (l : list A) st :
  (count ≠ 0 → from + count ≤ List.length l) → 6 ≤ from →
  (∀ z, z ∈ l → z ∈ l0) →
  ∃ l' st', GoSort.for_range from count (GoSort.shell_step less) l st = Some (l', st') ∧
            l' ≡ₚ l ∧ (flag st → flag st').
Proof.
  revert from l st. induction count as [|c IH]; intros from l st Hlen Hfrom Hin.
  - by exists l, st.
  - cbn [GoSort.for_range].
    destruct (lookup_lt_is_Some_2 l from) as [x Hx]; [lia|].
    destruct (lookup_lt_is_Some_2 l (from - 6)) as [y Hy]; [lia|].
    assert (Hstep : ∃ (l1 : list A) st1,
              GoSort.shell_step less from l st = Some (l1, st1) ∧ l1 ≡ₚ l ∧
              (flag st → flag st1)).
    { unfold GoSort.shell_step.
      destruct (Less_runs l from (from - 6) x y st) as (r & st1 & Hless & Hmono & _);
        eauto using list_elem_of_lookup_2.
      erewrite bind_Some by exact Hless.
      destruct r.
      - erewrite Swap_run by eauto. eexists _, _; split; [done|].
        split; [by apply swap_Permutation|done].
      - by exists l, st1. }
    destruct Hstep as (l1 & st1 & Hrun & Hperm & Hmono).
    erewrite bind_Some by exact Hrun.
    destruct (IH (S from) l1 st1) as (l2 & st2 & Hrun2 & Hperm2 & Hmono2).
    + intros _. rewrite Hperm. lia.
    + lia.
    + intros z Hmem. apply Hin. by rewrite <- Hperm.
    + exists l2, st2. split; [done|]. split; [by rewrite Hperm2|auto].
Qed.

Lemma quickSort_func_detects st :
  2 ≤ List.length l0 → (∃ x, x ∈ l0 ∧ bad x) →
  ∃ l' st', GoSort.quickSort_func less l0 st = Some (l', st') ∧ l' ≡ₚ l0 ∧ flag st'.
Proof.
  intros Hlen (x & Hx & Hbx). unfold GoSort.quickSort_func.
  assert (Hlt : (1 <? List.length l0) = true) by (apply Nat.ltb_lt; lia).
  rewrite Hlt.
  destruct (shell_pass_detects (List.length l0 - 6) 6 l0 st) as (l1 & st1 & Hrun & Hperm & _);
    [lia|lia|done|].
  erewrite bind_Some by exact Hrun.
  destruct l1 as [|x0 [|x1 rest]]; [rewrite <- Hperm in Hlen; cbn in Hlen; lia..|].
  unfold GoSort.insertionSort_func.
  replace (List.length (x0 :: x1 :: rest) - 1) with (List.length (x1 :: rest))
    by (cbn; lia).
  destruct (insertion_outer_detects (x1 :: rest) [x0] st1)
    as (l' & st' & Hrun' & Hperm' & _ & Hrest & Hhead); [done| |].
  { intros z Hmem. by rewrite <- Hperm. }
  exists l', st'. split; [exact Hrun'|]. split; [by rewrite Hperm', <- Hperm|].
  rewrite <- Hperm in Hx. apply elem_of_cons in Hx as [->|Hx].
  - by apply (Hhead ltac:(done) x0).
  - by apply (Hrest x).
Qed.
End GoSortDetects.


(** ** Byte strings *)

Lemma string_from_prefix (p s : string) :
  String.prefix p s = true →
  ∃ rest, string_from (String.length p) s = Some rest ∧ s = p +:+ rest.
Proof.
  revert s. induction p as [|c p IH]; intros s Hp.
  - by exists s.
  - destruct s as [|d s]; [done|]. simpl in Hp.
    destruct (ascii_dec c d) as [->|]; [|done].
    destruct (IH s Hp) as (rest & Hfrom & ->).
    exists rest. by split.
Qed.

Lemma getKernelABI_prefix (k : string) :
  strings_HasPrefix k kernelPrefix = true →
  ∃ abi, getKernelABI k = Some abi ∧ k = kernelPrefix +:+ abi.
Proof. apply string_from_prefix. Qed.

Lemma kernelNames_prefix (entries : list string) :
  Forall (λ k, strings_HasPrefix k kernelPrefix = true) (kernelNames entries).
Proof.
  apply Forall_forall. intros k Hk. apply list_elem_of_In in Hk.
  by apply filter_In in Hk as [_ Hk].
Qed.

Lemma StronglySorted_strict {A} (R : A → A → bool) (l : list A) :
  NoDup l →
  (∀ a b, a ∈ l → b ∈ l → a ≠ b → R a b = true ∨ R b a = true) →
  StronglySorted (λ x y, R y x = false) l →
  StronglySorted (λ x y, R x y = true) l.
Proof.
  intros Hnd Htot Hs. induction Hs as [|x l Hs IH Hx]; [constructor|].
  apply NoDup_cons in Hnd as [Hxl Hnd]. constructor.
  - apply IH; [done|]. intros a b Ha Hb. apply Htot; by right.
  - apply Forall_forall. intros y Hy. rewrite Forall_forall in Hx.
    destruct (Htot x y) as [?|Hyx]; [by left|by right|by intros ->|done|].
    by rewrite (Hx y Hy) in Hyx.
Qed.

Section Construction.
Context `{H : Host} `{V : DebVersion} `{So : SortSlice}.

(** ** [readKernels] and [NewKernelManager] *)

Lemma readKernels_less_parses (a b : string) (s : option error) :
  parses a → parses b → readKernels_less a b s = Some (newer a b, s).
Proof.
  intros (va & x & Ha & Hx) (vb & y & Hb & Hy).
  unfold readKernels_less, newer. unfold getKernelABI in *.
  rewrite Ha, Hb. cbn. rewrite bind_ret, Hx, bind_ret, Hy. done.
Qed.

Lemma readKernels_ReadDir_error km dir s e :
  ReadDir (fs s) dir = Err e →
  readKernels km dir s
  = Some (([], Some (fmt_Errorf "Could not determine kernels: %w" [] e)), s).
Proof.
  intros Hr. unfold readKernels, appFs_ReadDir, mbind, M_bind. cbn beta iota.
  by rewrite Hr.
Qed.

Lemma readKernels_run km dir s entries :
  ReadDir (fs s) dir = Ok entries →
  readKernels km dir s
  = match sort_Slice readKernels_less (kernelNames entries) None with
    | Some (sorted, err) => Some ((sorted, err), s)
    | None => None
    end.
Proof.
  intros Hr. unfold readKernels, appFs_ReadDir, mbind, M_bind. cbn beta iota.
  by rewrite Hr.
Qed.

Lemma readKernels_short `{!SortSliceLaws So} km dir s entries :
  ReadDir (fs s) dir = Ok entries →
  List.length (kernelNames entries) ≤ 1 →
  readKernels km dir s = Some ((kernelNames entries, None), s).
Proof.
  intros Hr Hlen. rewrite (readKernels_run _ _ _ _ Hr).
  by rewrite sort_Slice_short.
Qed.

Lemma readKernels_sorted `{!SortSliceLaws So} km dir s entries :
  ReadDir (fs s) dir = Ok entries →
  (∀ k, k ∈ kernelNames entries → parses k) →
  sortable newer (kernelNames entries) →
  ∃ ks, readKernels km dir s = Some ((ks, None), s) ∧
        kernelNames entries ≡ₚ ks ∧
        StronglySorted (λ x y, newer y x = false) ks.
Proof.
  intros Hr Hparse Hsort. rewrite (readKernels_run _ _ _ _ Hr).
  destruct (sort_Slice_sorts _ _ readKernels_less newer (kernelNames entries) None)
    as (ks & Hrun & Hperm & Hsorted); [|done|].
  - intros a b s0 Ha Hb. apply readKernels_less_parses; auto.
  - exists ks. by rewrite Hrun.
Qed.

Lemma NewKernelManager_inv s okm err s' :
  NewKernelManager s = Some ((okm, err), s') →
  ∃ ks e1 s1, readKernels (mkKernelManager "/usr/lib/linux" "/boot/efi/EFI/ubuntu" [] [] []
                             "root=magic") "/usr/lib/linux" s = Some ((ks, e1), s1) ∧
    match e1 with
    | Some e => okm = None ∧ err = Some e
    | None => ∃ kt e2, readKernels (mkKernelManager "/usr/lib/linux" "/boot/efi/EFI/ubuntu"
                                      ks [] [] "root=magic") "/boot/efi/EFI/ubuntu" s1
                       = Some ((kt, e2), s') ∧
        match e2 with
        | Some e => okm = None ∧ err = Some e
        | None => okm = Some (mkKernelManager "/usr/lib/linux" "/boot/efi/EFI/ubuntu"
                                ks kt [] "root=magic") ∧ err = None
        end
    end.
Proof.
  unfold NewKernelManager. intros Hrun.
  apply bind_inv in Hrun as ([ks e1] & s1 & Hr1 & Hrun).
  exists ks, e1, s1. split; [done|].
  cbn beta iota in Hrun. unfold mret, M_ret in Hrun.
  destruct e1 as [e|]; [by simplify_eq|].
  apply bind_inv in Hrun as ([kt e2] & s2 & Hr2 & Hrun).
  cbn beta iota in Hrun.
  exists kt, e2. destruct e2 as [e|]; by simplify_eq.
Qed.

(** A source directory that cannot be listed fails construction. *)
Lemma NewKernelManager_ReadDir_error s e :
  ReadDir (fs s) "/usr/lib/linux" = Err e →
  NewKernelManager s
  = Some ((None, Some (fmt_Errorf "Could not determine kernels: %w" [] e)), s).
Proof.
  intros Hr. unfold NewKernelManager.
  by erewrite bind_Some by (by apply readKernels_ReadDir_error).
Qed.

(** Whenever construction reports an error there is no manager. *)
Lemma NewKernelManager_error_no_manager s okm e s' :
  NewKernelManager s = Some ((okm, Some e), s') → okm = None.
Proof.
  intros Hrun. apply NewKernelManager_inv in Hrun as (ks & e1 & s1 & _ & Hrun).
  destruct e1; [by destruct Hrun|].
  destruct Hrun as (kt & e2 & _ & Hrun). destruct e2; by destruct Hrun.
Qed.

(** C3 (as the code has it). When construction succeeds on a source
    directory all of whose kernel file names carry a parseable version, the
    stored source list is a rearrangement of those names in descending
    version order: no kernel is followed by one with a strictly greater
    version. The order is strict, every kernel strictly newer than all that
    follow it, when the names are pairwise distinct and no two of them
    carry versions that compare equal. [GreaterThan] is taken to be what
    [sort.Slice] asks of [less]: a transitive ordering, with a transitive
    negation, of the versions present. *)
Theorem NewKernelManager_sourceKernels_descending `{!SortSliceLaws So}
    s km s' entries :
  ReadDir (fs s) "/usr/lib/linux" = Ok entries →
  (∀ k, k ∈ kernelNames entries → parses k) →
  sortable newer (kernelNames entries) →
  NewKernelManager s = Some ((Some km, None), s') →
  sourceKernels km ≡ₚ kernelNames entries ∧
  StronglySorted (λ a b, newer b a = false) (sourceKernels km) ∧
  (NoDup (kernelNames entries) → total_on newer (kernelNames entries) →
   StronglySorted (λ a b, newer a b = true) (sourceKernels km)).
Proof.
  intros Hr Hparse Hord Hrun.
  apply NewKernelManager_inv in Hrun as (ks & e1 & s1 & Hr1 & Hrun).
  destruct (readKernels_sorted
              (mkKernelManager "/usr/lib/linux" "/boot/efi/EFI/ubuntu" [] [] [] "root=magic")
              "/usr/lib/linux" s entries Hr Hparse Hord)
    as (ks' & Hr1' & Hperm & Hsorted).
  rewrite Hr1' in Hr1. simplify_eq.
  destruct Hrun as (kt & e2 & Hr2 & Hrun).
  destruct e2 as [e|]; destruct Hrun as [Hkm _]; simplify_eq. cbn.
  split; [done|]. split; [done|]. intros Hnd Htot.
  apply StronglySorted_strict; [by rewrite <- Hperm| |done].
  intros a b Ha Hb. apply Htot; by rewrite Hperm.
Qed.

(** Construction never looks at the version of a kernel that is alone in
    its directory. *)
Lemma NewKernelManager_single_kernel `{!SortSliceLaws So} s src tgt :
  ReadDir (fs s) "/usr/lib/linux" = Ok src →
  ReadDir (fs s) "/boot/efi/EFI/ubuntu" = Ok tgt →
  List.length (kernelNames src) ≤ 1 → List.length (kernelNames tgt) ≤ 1 →
  NewKernelManager s
  = Some ((Some (mkKernelManager "/usr/lib/linux" "/boot/efi/EFI/ubuntu"
                   (kernelNames src) (kernelNames tgt) [] "root=magic"), None), s).
Proof.
  intros Hsrc Htgt Hls Hlt. unfold NewKernelManager.
  erewrite bind_Some by (by apply readKernels_short).
  cbn beta iota.
  by erewrite bind_Some by (by apply readKernels_short).
Qed.

End Construction.

(** ** Where [readKernels] does notice a version that does not parse *)

Section DetectUnparsable.
Context `{H : Host} `{V : DebVersion}.

Lemma readKernels_less_runs (names : list string) a b st :
  Forall (λ k, strings_HasPrefix k kernelPrefix = true) names →
  a ∈ names → b ∈ names →
  ∃ r st', readKernels_less a b st = Some (r, st') ∧
           (parseError names st → parseError names st') ∧
           (¬ parses a ∨ ¬ parses b → parseError names st').
Proof.
  intros Hpre Ha Hb. rewrite Forall_forall in Hpre.
  destruct (getKernelABI_prefix a (Hpre a Ha)) as (va & Hva & _).
  destruct (getKernelABI_prefix b (Hpre b Hb)) as (vb & Hvb & _).
  unfold readKernels_less. unfold getKernelABI in Hva, Hvb.
  rewrite Hva. cbn [orPanic]. rewrite bind_ret.
  destruct (NewVersion va) as [x|e] eqn:Hx.
  - rewrite Hvb. cbn [orPanic]. rewrite bind_ret.
    destruct (NewVersion vb) as [y|e] eqn:Hy.
    + eexists _, st. split; [done|]. split; [done|].
      intros [Hbad|Hbad]; destruct Hbad; eexists _, _; by split.
    + eexists false, _. split; [done|].
      split; intros _; by exists b, vb, e.
  - eexists false, _. split; [done|].
    split; intros _; by exists a, va, e.
Qed.

(** On the short path of Go 1.16's [sort.Slice], two to twelve kernel
    names, [readKernels] reports an error as soon as one of the names
    carries a version that does not parse; the error names such a kernel. *)
Lemma readKernels_detects_unparsable km dir s entries :
  ReadDir (fs s) dir = Ok entries →
  2 ≤ List.length (kernelNames entries) ≤ 12 →
  (∃ k, k ∈ kernelNames entries ∧ ¬ parses k) →
  ∃ ks err, readKernels (So := GoSort_Slice) km dir s = Some ((ks, err), s) ∧
            parseError (kernelNames entries) err.
Proof.
  intros Hr [Hlen _] Hbad. rewrite (readKernels_run _ _ _ _ Hr).
  destruct (quickSort_func_detects readKernels_less (kernelNames entries)
              (λ k, ¬ parses k) (parseError (kernelNames entries))
              (λ a b st, readKernels_less_runs _ a b st (kernelNames_prefix entries))
              None Hlen Hbad) as (ks & err & Hrun & _ & Herr).
  exists ks, err. unfold sort_Slice, GoSort_Slice. by rewrite Hrun.
Qed.

(** Then construction fails and returns no manager. *)
Lemma NewKernelManager_detects_unparsable s entries :
  ReadDir (fs s) "/usr/lib/linux" = Ok entries →
  2 ≤ List.length (kernelNames entries) ≤ 12 →
  (∃ k, k ∈ kernelNames entries ∧ ¬ parses k) →
  ∃ err, NewKernelManager (So := GoSort_Slice) s = Some ((None, Some err), s) ∧
         parseError (kernelNames entries) (Some err).
Proof.
  intros Hr Hlen Hbad.
  destruct (readKernels_detects_unparsable
              (mkKernelManager "/usr/lib/linux" "/boot/efi/EFI/ubuntu" [] [] [] "root=magic")
              "/usr/lib/linux" s entries Hr Hlen Hbad) as (ks & err & Hrun & Herr).
  destruct Herr as (k & abi & cause & -> & Hk).
  eexists. split; [|by exists k, abi, cause].
  unfold NewKernelManager. by erewrite bind_Some by exact Hrun.
Qed.

End DetectUnparsable.

Section Install.
Context `{H : Host}.

(** ** [InstallKernels] *)

Lemma InstallKernels_loop_run km sks acc s :
  Forall (λ sk, strings_HasPrefix sk kernelPrefix = true) sks →
  ∃ es cs s', InstallKernels_loop km sks acc s = Some (acc ++ es, s') ∧
              calls s' = calls s ++ cs ∧ installs km sks cs es.
Proof.
  intros Hpre. revert acc s. induction Hpre as [|sk sks Hsk Hpre IH]; intros acc s.
  - exists [], [], s. rewrite !app_nil_r. repeat split. constructor.
  - cbn [InstallKernels_loop].
    unfold callMaybeUpdateFile, mbind, M_bind. cbn beta iota.
    destruct (MaybeUpdateFile (fs s) (path_Join (targetDir km) sk)
                (path_Join (sourceDir km) sk)) as [fs' [updated [e|]]] eqn:Hcall.
    + cbn. edestruct IH as (es & cs & s' & Hrun & Hcalls & Hins).
      rewrite Hrun. eexists es, (_ :: cs), s'. split; [done|]. split.
      * rewrite Hcalls. cbn. by rewrite <- app_assoc.
      * by constructor.
    + destruct (getKernelABI_prefix sk Hsk) as (abi & Habi & _).
      assert (Hlog : ∀ s0, ∃ s1, (if updated then log_Printf "Installed or updated kernel %s" [ArgS sk]
                    else mret ()) s0 = Some ((), s1) ∧ calls s1 = calls s0 ∧ fs s1 = fs s0).
      { intros s0. destruct updated; eexists; by split. }
      destruct (Hlog (mkSys fs' (logs s)
                  (calls s ++ [CallMaybeUpdateFile (path_Join (targetDir km) sk)
                                 (path_Join (sourceDir km) sk) updated None])))
        as (s1 & -> & Hc1 & _).
      rewrite Habi. cbn.
      edestruct IH as (es & cs & s' & Hrun & Hcalls & Hins).
      rewrite Hrun. eexists (_ :: es), (_ :: cs), s'. split; [|split].
      * by rewrite <- app_assoc.
      * rewrite Hcalls, Hc1. cbn. by rewrite <- app_assoc.
      * by constructor.
Qed.

Lemma installs_length km sks cs es :
  installs km sks cs es →
  List.length cs = List.length sks ∧
  List.length es = List.length (List.filter copySucceeded cs).
Proof. induction 1; cbn; lia. Qed.

Lemma installs_all_copied km sks cs es :
  installs km sks cs es → Forall (λ c, copySucceeded c = true) cs →
  List.length es = List.length sks.
Proof.
  induction 1; intros Hall; cbn; [done| |].
  - apply Forall_cons in Hall as [_ Hall]. auto.
  - by apply Forall_cons in Hall as [? _].
Qed.

Lemma installs_entries km sks cs es e :
  installs km sks cs es → e ∈ es →
  ∃ sk abi, sk ∈ sks ∧ getKernelABI sk = Some abi ∧ e = bootEntryFor km sk abi.
Proof.
  induction 1 as [|sk abi updated sks cs es Habi _ IH|sk updated e' sks cs es _ IH];
    intros He.
  - by apply elem_of_nil in He.
  - apply elem_of_cons in He as [->|He].
    + exists sk, abi. split; [by left|done].
    + destruct (IH He) as (sk' & abi' & ? & ? & ?). exists sk', abi'.
      split; [by right|done].
  - destruct (IH He) as (sk' & abi' & ? & ? & ?). exists sk', abi'.
    split; [by right|done].
Qed.

Lemma InstallKernels_run km s :
  Forall (λ sk, strings_HasPrefix sk kernelPrefix = true) (sourceKernels km) →
  ∃ es cs s', InstallKernels km s = Some ((set_bootEntries es km, None), s') ∧
              calls s' = calls s ++ cs ∧ installs km (sourceKernels km) cs es.
Proof.
  intros Hpre.
  destruct (InstallKernels_loop_run km (sourceKernels km) [] s Hpre)
    as (es & cs & s' & Hrun & Hcalls & Hins).
  exists es, cs, s'. split; [|done].
  unfold InstallKernels. by erewrite bind_Some by exact Hrun.
Qed.

(** C1 (as the code has it). [InstallKernels] returns no error, calls
    [MaybeUpdateFile] once per source kernel, and leaves one boot entry for
    each kernel whose copy step returned no error, in order; a kernel whose
    copy step failed gets no entry. So the number of boot entries is the
    number of successful copy steps, and it is the number of source kernels
    when no copy step fails. *)
Theorem InstallKernels_entries_for_copied km s :
  Forall (λ sk, strings_HasPrefix sk kernelPrefix = true) (sourceKernels km) →
  ∃ km' s' cs,
    InstallKernels km s = Some ((km', None), s') ∧
    calls s' = calls s ++ cs ∧
    installs km (sourceKernels km) cs (bootEntries km') ∧
    List.length cs = List.length (sourceKernels km) ∧
    List.length (bootEntries km') = List.length (List.filter copySucceeded cs) ∧
    (Forall (λ c, copySucceeded c = true) cs →
     List.length (bootEntries km') = List.length (sourceKernels km)).
Proof.
  intros Hpre. destruct (InstallKernels_run km s Hpre) as (es & cs & s' & Hrun & Hcalls & Hins).
  exists (set_bootEntries es km), s', cs. cbn.
  pose proof (installs_length km (sourceKernels km) cs es Hins) as [Hlen1 Hlen2].
  split_and!; try done. by apply (installs_all_copied km _ cs).
Qed.

(** C8. Every boot entry [InstallKernels] leaves belongs to a source
    kernel [sk] = "kernel.efi-" ++ [abi]: its options are a backslash, the
    kernel's file name, a space and the configured kernel command line; its
    label and description are "Ubuntu with kernel " and "Ubuntu entry for
    kernel " followed by [abi]; its file name is the shim of the
    architecture. *)
Theorem InstallKernels_entry_contents km s :
  Forall (λ sk, strings_HasPrefix sk kernelPrefix = true) (sourceKernels km) →
  ∃ km' s',
    InstallKernels km s = Some ((km', None), s') ∧
    ∀ e, e ∈ bootEntries km' →
      ∃ sk abi, sk ∈ sourceKernels km ∧ sk = kernelPrefix +:+ abi ∧
        Options e = backslash +:+ sk +:+ " " +:+ kernelOptions km ∧
        Label e = "Ubuntu with kernel " +:+ abi ∧
        Description e = "Ubuntu entry for kernel " +:+ abi ∧
        Filename e = "shim" +:+ GetEfiArchitecture +:+ ".efi".
Proof.
  intros Hpre. destruct (InstallKernels_run km s Hpre) as (es & cs & s' & Hrun & Hcalls & Hins).
  exists (set_bootEntries es km), s'. split; [done|]. cbn. intros e He.
  destruct (installs_entries _ _ _ _ _ Hins He) as (sk & abi & Hsk & Habi & ->).
  exists sk, abi. split; [done|]. split; [|done].
  rewrite Forall_forall in Hpre.
  destruct (getKernelABI_prefix sk (Hpre sk Hsk)) as (abi' & Habi' & Heq). congruence.
Qed.

End Install.

(** ** [RemoveObsoleteKernels] *)

Section Removal.
Context `{H : Host}.

Lemma isObsoleteKernel_spec km k :
  isObsoleteKernel km k = true ↔ k ∉ sourceKernels km.
Proof.
  unfold isObsoleteKernel. induction (sourceKernels km) as [|sk sks IH]; cbn.
  - split; [intros _; apply not_elem_of_nil|done].
  - rewrite not_elem_of_cons. destruct (String.eqb_spec sk k) as [->|Hne].
    + split; [done|]. by intros [? _].
    + rewrite IH. split; [by intros; split|by intros [_ ?]].
Qed.

Lemma obsoleteKernels_spec km tk :
  tk ∈ obsoleteKernels km ↔ tk ∈ targetKernels km ∧ tk ∉ sourceKernels km.
Proof.
  unfold obsoleteKernels. rewrite list_elem_of_In, filter_In, <- list_elem_of_In.
  by rewrite isObsoleteKernel_spec.
Qed.

Lemma failedRemovals_cons_failed tk e names errs :
  failedRemovals (tk :: names) (Some e :: errs) = tk :: failedRemovals names errs.
Proof. done. Qed.

Lemma failedRemovals_cons_removed tk names errs :
  failedRemovals (tk :: names) (None :: errs) = failedRemovals names errs.
Proof. done. Qed.

Lemma failedRemovals_lookup names errs tk :
  tk ∈ failedRemovals names errs ↔
  ∃ i e, names !! i = Some tk ∧ errs !! i = Some (Some e).
Proof.
  revert errs. induction names as [|n names IH]; intros errs.
  { split; [by intros ?%elem_of_nil|].
    intros (i & e' & Hi & _). by rewrite lookup_nil in Hi. }
  destruct errs as [|[e|] errs].
  - split; [by intros ?%elem_of_nil|].
    intros (i & e' & _ & Hi). by rewrite lookup_nil in Hi.
  - rewrite failedRemovals_cons_failed, elem_of_cons, IH. split.
    + intros [->|(i & e' & ? & ?)]; [by exists 0, e|by exists (S i), e'].
    + intros ([|i] & e' & ? & ?); simplify_eq/=; [by left|right; by exists i, e'].
  - rewrite failedRemovals_cons_removed, IH. split.
    + intros (i & e' & ? & ?). by exists (S i), e'.
    + intros ([|i] & e' & ? & ?); simplify_eq/=. by exists i, e'.
Qed.

Lemma RemoveObsoleteKernels_loop_run km tks remaining s :
  ∃ errs s',
    RemoveObsoleteKernels_loop km tks remaining s
    = Some (remaining ++ failedRemovals (List.filter (isObsoleteKernel km) tks) errs, s') ∧
    List.length errs = List.length (List.filter (isObsoleteKernel km) tks) ∧
    calls s' = calls s ++ removeCalls km (List.filter (isObsoleteKernel km) tks) errs.
Proof.
  revert remaining s. induction tks as [|tk tks IH]; intros remaining s.
  - exists [], s. cbn. by rewrite !app_nil_r.
  - cbn [RemoveObsoleteKernels_loop List.filter].
    destruct (isObsoleteKernel km tk) eqn:Hobs; cbn [negb].
    + unfold appFs_Remove, mbind, M_bind. cbn beta iota.
      destruct (Remove (fs s) (path_Join (targetDir km) tk)) as [fs' [e|]] eqn:Hrm;
        cbn beta iota; unfold log_Printf; cbn beta iota.
      * edestruct IH as (errs & s' & Hrun & Hlen & Hcalls). rewrite Hrun.
        exists (Some e :: errs), s'. split_and!.
        -- by rewrite failedRemovals_cons_failed, <- app_assoc.
        -- cbn. lia.
        -- rewrite Hcalls. cbn. by rewrite <- app_assoc.
      * edestruct IH as (errs & s' & Hrun & Hlen & Hcalls). rewrite Hrun.
        exists (None :: errs), s'. split_and!.
        -- by rewrite failedRemovals_cons_removed.
        -- cbn. lia.
        -- rewrite Hcalls. cbn. by rewrite <- app_assoc.
    + apply IH.
Qed.

Lemma RemoveObsoleteKernels_run km s :
  ∃ errs s',
    RemoveObsoleteKernels km s
    = Some ((set_targetKernels (failedRemovals (obsoleteKernels km) errs) km, None), s') ∧
    List.length errs = List.length (obsoleteKernels km) ∧
    calls s' = calls s ++ removeCalls km (obsoleteKernels km) errs.
Proof.
  destruct (RemoveObsoleteKernels_loop_run km (targetKernels km) [] s)
    as (errs & s' & Hrun & Hlen & Hcalls).
  exists errs, s'. split; [|done].
  unfold RemoveObsoleteKernels. by erewrite bind_Some by exact Hrun.
Qed.

(** C4. [RemoveObsoleteKernels] calls [Remove] on exactly the tracked
    target kernels whose file name is not a source kernel, one call each,
    in order; no call is made on the path of a target kernel that is also a
    source kernel. The file names of the target list are taken to name
    distinct paths of the target directory. *)
Theorem RemoveObsoleteKernels_attempts km s :
  (∀ a b, a ∈ targetKernels km → b ∈ targetKernels km →
          path_Join (targetDir km) a = path_Join (targetDir km) b → a = b) →
  ∃ km' s' errs,
    RemoveObsoleteKernels km s = Some ((km', None), s') ∧
    List.length errs = List.length (obsoleteKernels km) ∧
    calls s' = calls s ++ removeCalls km (obsoleteKernels km) errs ∧
    (∀ tk, tk ∈ obsoleteKernels km ↔ tk ∈ targetKernels km ∧ tk ∉ sourceKernels km) ∧
    (∀ tk err, tk ∈ targetKernels km → tk ∈ sourceKernels km →
       CallRemove (path_Join (targetDir km) tk) err
         ∉ removeCalls km (obsoleteKernels km) errs).
Proof.
  intros Hinj. destruct (RemoveObsoleteKernels_run km s) as (errs & s' & Hrun & Hlen & Hcalls).
  eexists _, s', errs. split_and!; [done..| |].
  - apply obsoleteKernels_spec.
  - intros tk err Htk Hsrc Hin. unfold removeCalls in Hin.
    apply elem_of_lookup_zip_with in Hin as (i & tk' & err' & Heq & Hi & _).
    apply list_elem_of_lookup_2 in Hi. apply obsoleteKernels_spec in Hi as [Ht Hs].
    simplify_eq. apply Hs. by rewrite <- (Hinj tk tk' Htk Ht).
Qed.

(** C5. [RemoveObsoleteKernels] returns no error whatever the deletions
    return; it attempts every obsolete kernel, also after an attempt that
    failed; and every kernel whose attempt failed is in the tracked target
    list afterwards. *)
Theorem RemoveObsoleteKernels_keeps_failed km s :
  ∃ km' s' errs,
    RemoveObsoleteKernels km s = Some ((km', None), s') ∧
    List.length errs = List.length (obsoleteKernels km) ∧
    calls s' = calls s ++ removeCalls km (obsoleteKernels km) errs ∧
    ∀ i tk e, obsoleteKernels km !! i = Some tk → errs !! i = Some (Some e) →
              tk ∈ targetKernels km'.
Proof.
  destruct (RemoveObsoleteKernels_run km s) as (errs & s' & Hrun & Hlen & Hcalls).
  eexists _, s', errs. split_and!; [done..|].
  cbn. intros i tk e Hi He. apply failedRemovals_lookup. by exists i, e.
Qed.

(** C10. After [RemoveObsoleteKernels] the tracked target list is exactly
    the obsolete kernels whose deletion failed, in order; a target kernel
    that is still a source kernel is no longer tracked, although no
    deletion was attempted on it. *)
Theorem RemoveObsoleteKernels_tracks_only_failed km s :
  ∃ km' s' errs,
    RemoveObsoleteKernels km s = Some ((km', None), s') ∧
    List.length errs = List.length (obsoleteKernels km) ∧
    calls s' = calls s ++ removeCalls km (obsoleteKernels km) errs ∧
    targetKernels km' = failedRemovals (obsoleteKernels km) errs ∧
    (∀ tk, tk ∈ targetKernels km' ↔
           ∃ i e, obsoleteKernels km !! i = Some tk ∧ errs !! i = Some (Some e)) ∧
    (∀ tk, tk ∈ targetKernels km → tk ∈ sourceKernels km → tk ∉ targetKernels km').
Proof.
  destruct (RemoveObsoleteKernels_run km s) as (errs & s' & Hrun & Hlen & Hcalls).
  eexists _, s', errs. split_and!; [done..| |]; cbn.
  - intros tk. apply failedRemovals_lookup.
  - intros tk Htk Hsrc Hin. apply failedRemovals_lookup in Hin as (i & e & Hi & _).
    apply list_elem_of_lookup_2 in Hi. by apply obsoleteKernels_spec in Hi as [_ ?].
Qed.

End Removal.

(** ** [CommitToBootLoader] and the caller *)

Section Commit.
Context `{H : Host}.

Lemma CommitToBootLoader_run km s :
  ∃ s', CommitToBootLoader km s = Some ((km, None), s') ∧
    fs s' = (WriteShimFallbackToFile (fs s) (fallbackFile km) (bootEntries km)).1 ∧
    logs s' = logs s ++
      [Print [ArgS "Configuring shim fallback loader"]] ++
      match (WriteShimFallbackToFile (fs s) (fallbackFile km) (bootEntries km)).2 with
      | Some e => [Printf "Failed to configure shim fallback loader: %v" [ArgE e]]
      | None => []
      end ++
      [Print [ArgS "Configuring UEFI boot device selection"]].
Proof.
  unfold CommitToBootLoader, fallbackFile, callWriteShimFallbackToFile, log_Print,
    log_Printf, mbind, M_bind, mret, M_ret. cbn.
  destruct (WriteShimFallbackToFile _ _ _) as [fs' [e|]]; cbn;
    eexists; (split; [done|]); split; try done; by rewrite <- !app_assoc.
Qed.

(** C9. When writing the fallback configuration fails with [e],
    [CommitToBootLoader] logs the failure and returns no error; the manager,
    and its boot entries with it, is as before; and the caller goes on to
    its next step. *)
Theorem CommitToBootLoader_write_failure km s e :
  (WriteShimFallbackToFile (fs s) (fallbackFile km) (bootEntries km)).2 = Some e →
  ∃ km' s',
    CommitToBootLoader km s = Some ((km', None), s') ∧
    km' = km ∧ bootEntries km' = bootEntries km ∧
    logs s' = logs s ++
      [Print [ArgS "Configuring shim fallback loader"];
       Printf "Failed to configure shim fallback loader: %v" [ArgE e];
       Print [ArgS "Configuring UEFI boot device selection"]] ∧
    ∀ next, exitOnErr CommitToBootLoader next km s = next km s'.
Proof.
  intros Hw. destruct (CommitToBootLoader_run km s) as (s' & Hrun & _ & Hlogs).
  exists km, s'. split_and!; try done.
  - by rewrite Hlogs, Hw.
  - intros next. unfold exitOnErr. by erewrite bind_Some by exact Hrun.
Qed.

(** The caller's four steps run to completion whatever the copies, the
    deletions and the writes of the fallback file return. *)
Lemma main_kernel_steps_completes km s :
  Forall (λ sk, strings_HasPrefix sk kernelPrefix = true) (sourceKernels km) →
  ∃ km' s', main_kernel_steps km s = Some ((km', Completed), s').
Proof.
  intros Hpre. unfold main_kernel_steps, exitOnErr.
  destruct (InstallKernels_run km s Hpre) as (es & cs & s1 & Hr1 & _).
  erewrite bind_Some by exact Hr1.
  cbn [fst snd].
  destruct (CommitToBootLoader_run (set_bootEntries es km) s1) as (s2 & Hr2 & _).
  erewrite bind_Some by exact Hr2. cbn [fst snd].
  destruct (RemoveObsoleteKernels_run (set_bootEntries es km) s2) as (errs & s3 & Hr3 & _).
  erewrite bind_Some by exact Hr3. cbn [fst snd].
  destruct (CommitToBootLoader_run
              (set_targetKernels (failedRemovals (obsoleteKernels (set_bootEntries es km)) errs)
                 (set_bootEntries es km)) s3) as (s4 & Hr4 & _).
  erewrite bind_Some by exact Hr4. cbn [fst snd].
  by eexists _, _.
Qed.

End Commit.

Lemma sortableb_correct {A} (R : A → A → bool) (l : list A) :
  sortableb R l = true → sortable R l.
Proof.
  unfold sortableb. rewrite !andb_true_iff, !forallb_forall.
  intros [Hirr Htr].
  assert (Hboth : ∀ a b c, a ∈ l → b ∈ l → c ∈ l →
            implb (R a b && R b c) (R a c) &&
            implb (negb (R a b) && negb (R b c)) (negb (R a c)) = true).
  { intros a b c Ha%list_elem_of_In Hb%list_elem_of_In Hc%list_elem_of_In.
    specialize (Htr a Ha). rewrite forallb_forall in Htr.
    specialize (Htr b Hb). rewrite forallb_forall in Htr.
    by apply Htr. }
  split.
  - intros a Ha%list_elem_of_In. by apply negb_true_iff, Hirr.
  - intros a b c Ha Hb Hc Hab Hbc.
    specialize (Hboth a b c Ha Hb Hc). rewrite Hab, Hbc in Hboth.
    by destruct (R a c).
  - intros a b c Ha Hb Hc Hab Hbc.
    specialize (Hboth a b c Ha Hb Hc). rewrite Hab, Hbc in Hboth.
    by destruct (R a c).
Qed.

Lemma parsesb_correct `{V : DebVersion} (k : string) : parsesb k = true → parses k.
Proof.
  unfold parsesb, parses. destruct (getKernelABI k) as [abi|]; [|done].
  destruct (NewVersion abi) as [v|] eqn:Hv; [|done]. intros _. by exists abi, v.
Qed.

(** ** The EFI variable doubles *)

(** C6 (as the code has it). Every operation of [NoEFIVariables] fails:
    [ListVariables], [GetVariable] and [SetVariable] with
    [ErrVarsUnavailable], [NewFileDevicePath] with an error of its own,
    "Cannot access". *)
Theorem NoEFIVariables_operations_fail `{H : Host} (v : NoEFIVariables)
    (guid : efi_GUID) (name : string) (payload : list Byte.byte)
    (att : VariableAttributes) (fs : FS) (filepath : string) (mode : FileDevicePathMode) :
  ListVariables v = ([], Some ErrVarsUnavailable) ∧
  GetVariable v guid name = ([], 0%N, Some ErrVarsUnavailable) ∧
  SetVariable v guid name payload att = (v, Some ErrVarsUnavailable) ∧
  NewFileDevicePath v fs filepath mode = ([], Some (errors_New "Cannot access")).
Proof. done. Qed.

(** C6, as stated, fails at [NewFileDevicePath]: the error is not
    [ErrVarsUnavailable], nor does it wrap it. *)
Lemma NoEFIVariables_NewFileDevicePath_not_VarsUnavailable :
  ∃ e, (NewFileDevicePath mkNoEFIVariables (fs Fixture.sys_two)
          "/boot/efi/EFI/ubuntu/shimx64.efi" 0%N).2 = Some e ∧
       e ≠ ErrVarsUnavailable ∧ error_cause e ≠ ErrVarsUnavailable.
Proof. exists (errors_New "Cannot access"). by split_and!. Qed.

(** C7. In the in-memory store, setting a variable to the empty payload
    succeeds and leaves [GetVariable] of that descriptor failing with
    [ErrVarNotExist]; setting it to a non-empty payload succeeds and leaves
    [GetVariable] returning that payload and those attributes. *)
Theorem MockEFIVariables_set_then_get `{H : Host} (m : MockEFIVariables)
    (guid : efi_GUID) (name : string) (att : VariableAttributes) :
  (SetVariable m guid name [] att).2 = None ∧
  GetVariable (SetVariable m guid name [] att).1 guid name
    = ([], 0%N, Some ErrVarNotExist) ∧
  ∀ b payload,
    (SetVariable m guid name (b :: payload) att).2 = None ∧
    GetVariable (SetVariable m guid name (b :: payload) att).1 guid name
      = (b :: payload, att, None).
Proof.
  split; [done|]. split.
  - cbn. unfold Mock_GetVariable, store_lookup. cbn. by rewrite lookup_delete_eq.
  - intros b payload. split; [done|].
    cbn. unfold Mock_GetVariable, store_lookup. cbn. by rewrite lookup_insert_eq.
Qed.

(** Setting a variable leaves the other descriptors as they were. *)
Lemma MockEFIVariables_set_other `{H : Host} (m : MockEFIVariables)
    (guid guid' : efi_GUID) (name name' : string) (payload : list Byte.byte)
    (att : VariableAttributes) :
  mkVariableDescriptor name guid ≠ mkVariableDescriptor name' guid' →
  GetVariable (SetVariable m guid name payload att).1 guid' name'
  = GetVariable m guid' name'.
Proof.
  intros Hne. cbn. unfold Mock_GetVariable, Mock_SetVariable, store_lookup. cbn.
  destruct (List.length payload =? 0).
  - rewrite lookup_delete_ne by done. by destruct (store m).
  - rewrite lookup_insert_ne by done. by destruct (store m).
Qed.

(** ** The claims on the fixtures *)

Lemma MemFs_Join_inj (dir a b : string) : MemFs.Join dir a = MemFs.Join dir b → a = b.
Proof.
  unfold MemFs.Join. induction dir as [|c dir IH]; cbn; intros Heq.
  - by injection Heq.
  - injection Heq as Heq. by apply IH.
Qed.

Import Fixture.

(** C2 fails on a directory holding a single kernel: the version of
    "kernel.efi-garbage" does not parse, yet construction returns a manager
    that lists it and no error, because sorting one element compares
    nothing. *)
Theorem NewKernelManager_accepts_single_unparsable :
  (∃ e, NewVersion "garbage" = Err e) ∧
  NewKernelManager sys_single_unparsable
  = Some ((Some (manager ["kernel.efi-garbage"] []), None), sys_single_unparsable).
Proof. split; [by eexists|]. by vm_compute. Qed.

(** With a second kernel in the directory the same name is rejected, with
    an error that names it, and no manager is returned. *)
Example NewKernelManager_rejects_unparsable_in_pair :
  NewKernelManager sys_pair_unparsable
  = Some ((None,
           Some (fmt_Errorf "Could not parse kernel version of %s: %w"
                   ["kernel.efi-garbage"]
                   (errors_New "upstream_version must start with digit"))),
          sys_pair_unparsable).
Proof. by vm_compute. Qed.

(** C1, as stated, fails when a copy fails: two source kernels, one entry. *)
Lemma InstallKernels_failed_copy_no_entry :
  ∃ km' s',
    InstallKernels (manager two_kernels []) sys_two_faulty = Some ((km', None), s') ∧
    List.length (sourceKernels (manager two_kernels [])) = 2 ∧
    List.length (bootEntries km') = 1 ∧
    Label <$> bootEntries km' = ["Ubuntu with kernel 5.4.0-9"] ∧
    List.length (bootEntries km') ≠ List.length (sourceKernels (manager two_kernels [])).
Proof. eexists _, _. split; [by vm_compute|]. by vm_compute. Qed.

Lemma InstallKernels_entries_for_copied_witness :
  ∃ km' s' cs,
    InstallKernels (manager two_kernels []) sys_two_faulty = Some ((km', None), s') ∧
    calls s' = calls sys_two_faulty ++ cs ∧
    installs (manager two_kernels []) two_kernels cs (bootEntries km') ∧
    List.length cs = 2 ∧
    List.length (bootEntries km') = List.length (List.filter copySucceeded cs) ∧
    (Forall (λ c, copySucceeded c = true) cs → List.length (bootEntries km') = 2).
Proof.
  apply (InstallKernels_entries_for_copied (manager two_kernels []) sys_two_faulty).
  by repeat constructor.
Defined.

Lemma InstallKernels_entry_contents_witness :
  ∃ km' s',
    InstallKernels (manager two_kernels []) sys_two = Some ((km', None), s') ∧
    ∀ e, e ∈ bootEntries km' →
      ∃ sk abi, sk ∈ two_kernels ∧ sk = kernelPrefix +:+ abi ∧
        Options e = backslash +:+ sk +:+ " " +:+ "root=magic" ∧
        Label e = "Ubuntu with kernel " +:+ abi ∧
        Description e = "Ubuntu entry for kernel " +:+ abi ∧
        Filename e = "shim" +:+ "x64" +:+ ".efi".
Proof.
  apply (InstallKernels_entry_contents (manager two_kernels []) sys_two).
  by repeat constructor.
Defined.

(** The spec's example: two source kernels, an empty target. *)
Example InstallKernels_two_kernels :
  ∃ km' s',
    InstallKernels (manager two_kernels []) sys_two = Some ((km', None), s') ∧
    bootEntries km' =
      [mkBootEntry "shimx64.efi" "Ubuntu with kernel 5.4.0-10"
         (backslash +:+ "kernel.efi-5.4.0-10 root=magic") "Ubuntu entry for kernel 5.4.0-10";
       mkBootEntry "shimx64.efi" "Ubuntu with kernel 5.4.0-9"
         (backslash +:+ "kernel.efi-5.4.0-9 root=magic") "Ubuntu entry for kernel 5.4.0-9"].
Proof. eexists _, _. split; by vm_compute. Qed.

Lemma NewKernelManager_sourceKernels_descending_witness :
  ["kernel.efi-5.4.0-100"; "kernel.efi-5.4.0-10"; "kernel.efi-5.4.0-9"] ≡ₚ three_kernels ∧
  StronglySorted (λ a b, newer b a = false)
    ["kernel.efi-5.4.0-100"; "kernel.efi-5.4.0-10"; "kernel.efi-5.4.0-9"] ∧
  (NoDup three_kernels → total_on newer three_kernels →
   StronglySorted (λ a b, newer a b = true)
     ["kernel.efi-5.4.0-100"; "kernel.efi-5.4.0-10"; "kernel.efi-5.4.0-9"]).
Proof.
  apply (NewKernelManager_sourceKernels_descending sys_three
           (manager ["kernel.efi-5.4.0-100"; "kernel.efi-5.4.0-10"; "kernel.efi-5.4.0-9"] [])
           sys_three ("vmlinuz" :: three_kernels)).
  - by vm_compute.
  - intros k Hk. apply parsesb_correct. revert k Hk. apply Forall_forall.
    by repeat constructor.
  - apply sortableb_correct. by vm_compute.
  - by vm_compute.
Defined.

(** The three kernels are in strictly descending version order, which is
    neither order of their names as byte strings. *)
Example NewKernelManager_three_kernels :
  ∃ km s', NewKernelManager sys_three = Some ((Some km, None), s') ∧
    sourceKernels km = ["kernel.efi-5.4.0-100"; "kernel.efi-5.4.0-10"; "kernel.efi-5.4.0-9"] ∧
    StronglySorted (λ a b, newer a b = true) (sourceKernels km) ∧
    String.ltb "kernel.efi-5.4.0-10" "kernel.efi-5.4.0-100" = true ∧
    String.ltb "kernel.efi-5.4.0-100" "kernel.efi-5.4.0-9" = true.
Proof.
  eexists _, _. split; [by vm_compute|]. split; [done|]. split; [|done].
  cbn [sourceKernels manager]. by repeat constructor.
Qed.

(** C3, as stated, fails on two names that spell one version: both parse,
    construction succeeds, and neither kernel is strictly newer than the
    other, so the stored list is not strictly descending. *)
Lemma NewKernelManager_equal_versions_not_strict :
  ∃ km s', NewKernelManager sys_equal_versions = Some ((Some km, None), s') ∧
    sourceKernels km = ["kernel.efi-5.4.0-09"; "kernel.efi-5.4.0-9"] ∧
    (∀ k, k ∈ sourceKernels km → parses k) ∧
    ¬ StronglySorted (λ a b, newer a b = true) (sourceKernels km).
Proof.
  eexists _, _. split; [by vm_compute|]. cbn [sourceKernels manager].
  split; [done|]. split.
  - intros k Hk. apply parsesb_correct. revert k Hk. apply Forall_forall.
    by repeat constructor.
  - intros Hs. apply StronglySorted_inv in Hs as [_ Hs].
    apply Forall_cons in Hs as [Hs _]. by vm_compute in Hs.
Qed.

Lemma RemoveObsoleteKernels_attempts_witness :
  ∃ km' s' errs,
    RemoveObsoleteKernels km_obsolete sys_obsolete_faulty = Some ((km', None), s') ∧
    List.length errs = List.length (obsoleteKernels km_obsolete) ∧
    calls s' = calls sys_obsolete_faulty
               ++ removeCalls km_obsolete (obsoleteKernels km_obsolete) errs ∧
    (∀ tk, tk ∈ obsoleteKernels km_obsolete ↔
           tk ∈ targetKernels km_obsolete ∧ tk ∉ sourceKernels km_obsolete) ∧
    (∀ tk err, tk ∈ targetKernels km_obsolete → tk ∈ sourceKernels km_obsolete →
       CallRemove (path_Join (targetDir km_obsolete) tk) err
         ∉ removeCalls km_obsolete (obsoleteKernels km_obsolete) errs).
Proof.
  apply (RemoveObsoleteKernels_attempts km_obsolete sys_obsolete_faulty).
  intros a b _ _ Heq. by apply MemFs_Join_inj in Heq.
Defined.

(** The spec's example: the obsolete kernel is deleted and no longer
    tracked; when its deletion fails it stays tracked. *)
Example RemoveObsoleteKernels_obsolete :
  ∃ s', RemoveObsoleteKernels km_obsolete sys_obsolete
        = Some ((manager ["kernel.efi-5.4.0-10"] [], None), s') ∧
        MemFs.files (fs s') = [MemFs.Join source "kernel.efi-5.4.0-10";
                               MemFs.Join target "kernel.efi-5.4.0-10"].
Proof. eexists. split; by vm_compute. Qed.

Example RemoveObsoleteKernels_obsolete_faulty :
  ∃ s', RemoveObsoleteKernels km_obsolete sys_obsolete_faulty
        = Some ((manager ["kernel.efi-5.4.0-10"] ["kernel.efi-5.4.0-9"], None), s') ∧
        MemFs.files (fs s') = [MemFs.Join source "kernel.efi-5.4.0-10";
                               MemFs.Join target "kernel.efi-5.4.0-10";
                               MemFs.Join target "kernel.efi-5.4.0-9"].
Proof. eexists. split; by vm_compute. Qed.

Lemma CommitToBootLoader_write_failure_witness :
  ∃ km' s',
    CommitToBootLoader (manager two_kernels []) sys_csv_faulty = Some ((km', None), s') ∧
    km' = manager two_kernels [] ∧
    bootEntries km' = bootEntries (manager two_kernels []) ∧
    logs s' = logs sys_csv_faulty ++
      [Print [ArgS "Configuring shim fallback loader"];
       Printf "Failed to configure shim fallback loader: %v"
         [ArgE (errors_New "input/output error")];
       Print [ArgS "Configuring UEFI boot device selection"]] ∧
    ∀ next, exitOnErr CommitToBootLoader next (manager two_kernels []) sys_csv_faulty
            = next (manager two_kernels []) s'.
Proof.
  apply (CommitToBootLoader_write_failure (manager two_kernels []) sys_csv_faulty).
  by vm_compute.
Defined.

(** * Further properties *)

(** ** Slicing and [getKernelABI] *)

Lemma string_from_Some (n : nat) (s r : string) :
  string_from n s = Some r ↔ ∃ pre, String.length pre = n ∧ s = pre +:+ r.
Proof.
  revert s. induction n as [|n IH]; intros s; cbn.
  - split.
    + intros [= ->]. by exists EmptyString.
    + intros ([|c pre] & Hlen & ->); [done|discriminate].
  - destruct s as [|c s].
    + split; [done|]. intros ([|d pre] & Hlen & Heq); discriminate.
    + rewrite IH. split.
      * intros (pre & Hlen & ->). exists (String c pre). cbn. by rewrite Hlen.
      * intros ([|d pre] & Hlen & Heq); [discriminate|].
        cbn in Hlen, Heq. injection Heq as -> ->. exists pre. split; [lia|done].
Qed.

Lemma string_from_None (n : nat) (s : string) :
  string_from n s = None ↔ String.length s < n.
Proof.
  revert s. induction n as [|n IH]; intros s; cbn.
  - split; [done|lia].
  - destruct s as [|c s]; cbn.
    + split; [lia|done].
    + rewrite IH. lia.
Qed.

(** X1. [getKernelABI] does not look at the prefix: it returns whatever
    follows the first eleven bytes of the name, and panics exactly on the
    names shorter than eleven bytes. *)
Theorem getKernelABI_suffix (k abi : string) :
  (getKernelABI k = Some abi ↔ ∃ pre, String.length pre = 11 ∧ k = pre +:+ abi) ∧
  (getKernelABI k = None ↔ String.length k < 11).
Proof.
  unfold getKernelABI. split; [apply string_from_Some|apply string_from_None].
Qed.

Section MoreConstruction.
Context `{H : Host} `{V : DebVersion} `{So : SortSlice}.

Lemma readKernels_state km dir s r s' :
  readKernels km dir s = Some (r, s') → s' = s.
Proof.
  destruct (ReadDir (fs s) dir) as [entries|e] eqn:Hr.
  - rewrite (readKernels_run _ _ _ _ Hr).
    destruct (sort_Slice _ _ _) as [[sorted err]|]; by intros [= _ ->].
  - rewrite (readKernels_ReadDir_error _ _ _ _ Hr). by intros [= _ ->].
Qed.

(** X2. Whatever [NewKernelManager] returns, it has only read the file
    system: state, log and calls are as before. It returns either an error
    and no manager, or no error and a manager with the two fixed
    directories, the fixed kernel options and no boot entries. *)
Theorem NewKernelManager_returns s okm err s' :
  NewKernelManager s = Some ((okm, err), s') →
  s' = s ∧
  ((okm = None ∧ is_Some err) ∨
   (err = None ∧ ∃ ks kt,
      okm = Some (mkKernelManager "/usr/lib/linux" "/boot/efi/EFI/ubuntu" ks kt []
                    "root=magic"))).
Proof.
  unfold NewKernelManager. intros Hrun.
  apply bind_inv in Hrun as ([ks e1] & s1 & Hr1 & Hrun).
  apply readKernels_state in Hr1 as ->.
  cbn beta iota in Hrun. unfold mret, M_ret in Hrun.
  destruct e1 as [e|].
  { simplify_eq. split; [done|]. left. by split. }
  apply bind_inv in Hrun as ([kt e2] & s2 & Hr2 & Hrun).
  apply readKernels_state in Hr2 as ->.
  cbn beta iota in Hrun.
  destruct e2 as [e|]; simplify_eq; (split; [done|]).
  - left. by split.
  - right. split; [done|]. by exists ks, kt.
Qed.

(** X3. When a directory cannot be listed, the source directory or, once
    the source kernels are read, the target directory, [NewKernelManager]
    returns no manager and the listing error wrapped in "Could not determine
    kernels". *)
Theorem NewKernelManager_listing_error s e :
  ReadDir (fs s) "/usr/lib/linux" = Err e ∨
  ((∃ ks, readKernels emptyManager "/usr/lib/linux" s = Some ((ks, None), s)) ∧
   ReadDir (fs s) "/boot/efi/EFI/ubuntu" = Err e) →
  NewKernelManager s
  = Some ((None, Some (fmt_Errorf "Could not determine kernels: %w" [] e)), s).
Proof.
  intros [Hsrc|[[ks Hsrc] Htgt]]; unfold NewKernelManager.
  - by erewrite bind_Some by (by apply readKernels_ReadDir_error).
  - erewrite bind_Some by exact Hsrc. cbn beta iota.
    by erewrite bind_Some by (by apply readKernels_ReadDir_error).
Qed.

(** X4. When both directories can be listed, every kernel name in them
    carries a version that parses and [GreaterThan] orders the versions
    present, construction succeeds: the manager holds the kernel names of
    each directory, rearranged in descending version order, and every name
    it holds starts with "kernel.efi-". *)
Theorem NewKernelManager_succeeds `{!SortSliceLaws So} s src tgt :
  ReadDir (fs s) "/usr/lib/linux" = Ok src →
  ReadDir (fs s) "/boot/efi/EFI/ubuntu" = Ok tgt →
  (∀ k, k ∈ kernelNames src ++ kernelNames tgt → parses k) →
  sortable newer (kernelNames src) → sortable newer (kernelNames tgt) →
  ∃ km,
    NewKernelManager s = Some ((Some km, None), s) ∧
    sourceKernels km ≡ₚ kernelNames src ∧ targetKernels km ≡ₚ kernelNames tgt ∧
    StronglySorted (λ a b, newer b a = false) (sourceKernels km) ∧
    StronglySorted (λ a b, newer b a = false) (targetKernels km) ∧
    Forall (λ k, strings_HasPrefix k kernelPrefix = true)
      (sourceKernels km ++ targetKernels km).
Proof.
  intros Hsrc Htgt Hparse Hos Hot.
  destruct (readKernels_sorted emptyManager "/usr/lib/linux" s src Hsrc) as
    (ks & Hr1 & Hp1 & Hs1); [intros k Hk; apply Hparse; set_unfold; tauto|done|].
  destruct (readKernels_sorted (set_sourceKernels ks emptyManager)
              "/boot/efi/EFI/ubuntu" s tgt Htgt) as
    (kt & Hr2 & Hp2 & Hs2); [intros k Hk; apply Hparse; set_unfold; tauto|done|].
  eexists. split.
  - unfold NewKernelManager. erewrite bind_Some by exact Hr1. cbn beta iota.
    erewrite bind_Some by exact Hr2. done.
  - cbn. split_and!; try done.
    rewrite <- Hp1, <- Hp2. apply Forall_app; split; apply kernelNames_prefix.
Qed.

End MoreConstruction.

(** ** Construction on the short path of [sort.Slice] *)

Lemma quickSort_func_runs {A St : Type} (less : A → A → M St bool) (l0 : list A)
    (bad : A → Prop) (flag : St → Prop) :
  (∀ a b st, a ∈ l0 → b ∈ l0 →
     ∃ r st', less a b st = Some (r, st') ∧ (flag st → flag st') ∧
              (bad a ∨ bad b → flag st')) →
  ∀ st, ∃ l' st', GoSort.quickSort_func less l0 st = Some (l', st') ∧
                  l' ≡ₚ l0 ∧ (flag st → flag st').
Proof.
  intros Hless st. unfold GoSort.quickSort_func.
  destruct (1 <? List.length l0) eqn:Hlen; [|by exists l0, st].
  destruct (shell_pass_detects less l0 bad flag Hless (List.length l0 - 6) 6 l0 st)
    as (l1 & st1 & Hrun & Hperm & Hmono); [lia|lia|done|].
  erewrite bind_Some by exact Hrun.
  destruct l1 as [|x0 rest].
  { exists [], st1. by split_and!. }
  unfold GoSort.insertionSort_func.
  replace (List.length (x0 :: rest) - 1) with (List.length rest) by (cbn; lia).
  destruct (insertion_outer_detects less l0 bad flag Hless rest [x0] st1)
    as (l' & st' & Hrun' & Hperm' & Hmono' & _); [done| |].
  { intros z Hmem. by rewrite <- Hperm. }
  exists l', st'. split; [exact Hrun'|]. split; [by rewrite Hperm', <- Hperm|auto].
Qed.

Section ShortPath.
Context `{H : Host} `{V : DebVersion}.

Lemma parseError_mono (names names' : list string) (err : option error) :
  names ⊆ names' → parseError names err → parseError names' err.
Proof.
  intros Hsub (k & abi & cause & -> & Hk & Habi & Hv).
  exists k, abi, cause. split_and!; auto.
Qed.

Lemma readKernels_less_outcome (names : list string) a b st :
  Forall (λ k, strings_HasPrefix k kernelPrefix = true) names →
  a ∈ names → b ∈ names →
  ∃ r st', readKernels_less a b st = Some (r, st') ∧
           (st = None ∨ parseError names st → st' = None ∨ parseError names st') ∧
           (False ∨ False → st' = None ∨ parseError names st').
Proof.
  intros Hpre Ha Hb. rewrite Forall_forall in Hpre.
  destruct (getKernelABI_prefix a (Hpre a Ha)) as (va & Hva & _).
  destruct (getKernelABI_prefix b (Hpre b Hb)) as (vb & Hvb & _).
  unfold readKernels_less. unfold getKernelABI in Hva, Hvb.
  rewrite Hva. cbn [orPanic]. rewrite bind_ret.
  destruct (NewVersion va) as [x|e] eqn:Hx.
  - rewrite Hvb. cbn [orPanic]. rewrite bind_ret.
    destruct (NewVersion vb) as [y|e] eqn:Hy.
    + eexists _, st. split; [done|]. split; [done|tauto].
    + eexists false, _. split; [done|].
      split; intros _; right; by exists b, vb, e.
  - eexists false, _. split; [done|].
    split; intros _; right; by exists a, va, e.
Qed.

(** On any listing [readKernels] returns all the kernel names, rearranged,
    and either no error or the parse error of one of them. *)
Lemma readKernels_short_path_runs km dir s entries :
  ReadDir (fs s) dir = Ok entries →
  ∃ ks err, readKernels (So := GoSort_Slice) km dir s = Some ((ks, err), s) ∧
            ks ≡ₚ kernelNames entries ∧
            (err = None ∨ parseError (kernelNames entries) err).
Proof.
  intros Hr. rewrite (readKernels_run _ _ _ _ Hr).
  destruct (quickSort_func_runs readKernels_less (kernelNames entries)
              (λ _, False) (λ st, st = None ∨ parseError (kernelNames entries) st)
              (λ a b st, readKernels_less_outcome _ a b st (kernelNames_prefix entries))
              None) as (ks & err & Hrun & Hperm & Herr).
  exists ks, err. unfold sort_Slice, GoSort_Slice. rewrite Hrun.
  split; [done|]. split; [done|]. apply Herr. by left.
Qed.

(** X5. On the short path of Go 1.16's [sort.Slice] (at most twelve kernel
    names in a directory), a version that does not parse, in a source or a
    target directory that holds two kernel names or more, fails
    construction: no manager is returned, and the error names a kernel of
    these directories whose version does not parse. *)
Theorem NewKernelManager_rejects_unparsable s src tgt :
  ReadDir (fs s) "/usr/lib/linux" = Ok src →
  ReadDir (fs s) "/boot/efi/EFI/ubuntu" = Ok tgt →
  List.length (kernelNames src) ≤ 12 → List.length (kernelNames tgt) ≤ 12 →
  (2 ≤ List.length (kernelNames src) ∧ ∃ k, k ∈ kernelNames src ∧ ¬ parses k) ∨
  (2 ≤ List.length (kernelNames tgt) ∧ ∃ k, k ∈ kernelNames tgt ∧ ¬ parses k) →
  ∃ err, NewKernelManager (So := GoSort_Slice) s = Some ((None, Some err), s) ∧
         parseError (kernelNames src ++ kernelNames tgt) (Some err).
Proof.
  intros Hsrc Htgt Hls Hlt Hbad. unfold NewKernelManager.
  destruct (readKernels_short_path_runs emptyManager "/usr/lib/linux" s src Hsrc)
    as (ks & e1 & Hr1 & _ & He1).
  assert (Hfail : ∀ e, parseError (kernelNames src) e ∨ parseError (kernelNames tgt) e →
            ∃ err, e = Some err ∧
                   parseError (kernelNames src ++ kernelNames tgt) (Some err)).
  { intros e [He|He]; pose proof He as (k & abi & cause & -> & _);
      eexists; (split; [done|]); (eapply parseError_mono; [|exact He]); intros z Hmem; apply elem_of_app; tauto. }
  destruct Hbad as [[Hlen Hbad]|[Hlen Hbad]].
  - destruct (readKernels_detects_unparsable emptyManager "/usr/lib/linux" s src Hsrc
                (conj Hlen Hls) Hbad) as (ks' & e1' & Hr1' & He1').
    destruct (Hfail e1' (or_introl He1')) as (err & -> & Herr).
    exists err. split; [|done]. by erewrite bind_Some by exact Hr1'.
  - erewrite bind_Some by exact Hr1. cbn beta iota.
    destruct He1 as [->|He1].
    + destruct (readKernels_detects_unparsable (set_sourceKernels ks emptyManager)
                  "/boot/efi/EFI/ubuntu" s tgt Htgt (conj Hlen Hlt) Hbad)
        as (kt & e2 & Hr2 & He2).
      destruct (Hfail e2 (or_intror He2)) as (err & -> & Herr).
      exists err. split; [|done]. by erewrite bind_Some by exact Hr2.
    + destruct (Hfail e1 (or_introl He1)) as (err & -> & Herr).
      by exists err.
Qed.

(** X6. On the same path, a manager that [NewKernelManager] returns holds
    exactly the kernel names of the two directories, all of them starting
    with "kernel.efi-"; so [InstallKernels] cannot panic on it, and the
    caller's four steps run to completion from it. *)
Theorem NewKernelManager_then_main_steps s src tgt km s' :
  ReadDir (fs s) "/usr/lib/linux" = Ok src →
  ReadDir (fs s) "/boot/efi/EFI/ubuntu" = Ok tgt →
  List.length (kernelNames src) ≤ 12 → List.length (kernelNames tgt) ≤ 12 →
  NewKernelManager (So := GoSort_Slice) s = Some ((Some km, None), s') →
  sourceKernels km ≡ₚ kernelNames src ∧ targetKernels km ≡ₚ kernelNames tgt ∧
  Forall (λ k, strings_HasPrefix k kernelPrefix = true)
    (sourceKernels km ++ targetKernels km) ∧
  ∃ km' s'', main_kernel_steps km s' = Some ((km', Completed), s'').
Proof.
  intros Hsrc Htgt _ _ Hrun. unfold NewKernelManager in Hrun.
  destruct (readKernels_short_path_runs emptyManager "/usr/lib/linux" s src Hsrc)
    as (ks & e1 & Hr1 & Hp1 & _).
  erewrite bind_Some in Hrun by exact Hr1. cbn beta iota in Hrun.
  destruct e1 as [e|]; [done|].
  destruct (readKernels_short_path_runs (set_sourceKernels ks emptyManager)
              "/boot/efi/EFI/ubuntu" s tgt Htgt) as (kt & e2 & Hr2 & Hp2 & _).
  erewrite bind_Some in Hrun by exact Hr2. cbn beta iota in Hrun.
  destruct e2 as [e|]; [done|]. unfold mret, M_ret in Hrun. simplify_eq. cbn.
  assert (Hpre : Forall (λ k, strings_HasPrefix k kernelPrefix = true) (ks ++ kt)).
  { rewrite Hp1, Hp2. apply Forall_app; split; apply kernelNames_prefix. }
  split_and!; try done.
  apply main_kernel_steps_completes. cbn. by apply Forall_app in Hpre as [? _].
Qed.

End ShortPath.

(** ** More on [InstallKernels] *)

Lemma bind_ext {S A B} (m : M S A) (f g : A → M S B) s :
  (∀ a s', f a s' = g a s') → (m ≫= f) s = (m ≫= g) s.
Proof. intros Hfg. unfold mbind, M_bind. destruct (m s) as [[a s']|]; auto. Qed.

Section MoreInstall.
Context `{H : Host}.

Lemma InstallKernels_loop_old_entries km old sks acc s :
  InstallKernels_loop (set_bootEntries old km) sks acc s = InstallKernels_loop km sks acc s.
Proof.
  revert acc s. induction sks as [|sk sks IH]; intros acc s; [done|].
  cbn [InstallKernels_loop]. apply bind_ext. intros [updated [e|]] s1.
  - apply bind_ext. intros _ s2. apply IH.
  - apply bind_ext. intros _ s2. apply bind_ext. intros v s3. apply IH.
Qed.

(** X7. [InstallKernels] starts from an empty list of boot entries: the
    entries the manager held before the call have no effect on the result,
    on the file system, on the log. *)
Theorem InstallKernels_replaces_entries km old s :
  InstallKernels (set_bootEntries old km) s = InstallKernels km s.
Proof.
  unfold InstallKernels. cbn [sourceKernels set_bootEntries].
  unfold mbind, M_bind. rewrite InstallKernels_loop_old_entries.
  by destruct (InstallKernels_loop km (sourceKernels km) [] s) as [[es s']|].
Qed.

Lemma installs_sublist km sks cs es :
  installs km sks cs es →
  es `sublist_of` omap (entryOf km) sks ∧
  (Forall (λ c, copySucceeded c = true) cs → es = omap (entryOf km) sks).
Proof.
  induction 1 as [|sk abi updated sks cs es Habi _ [IH1 IH2]
                  |sk updated e sks cs es _ [IH1 IH2]].
  - split; [constructor|done].
  - change (omap (entryOf km) (sk :: sks))
      with (match entryOf km sk with
            | Some y => y :: omap (entryOf km) sks
            | None => omap (entryOf km) sks
            end).
    assert (He : entryOf km sk = Some (bootEntryFor km sk abi))
      by (unfold entryOf; by rewrite Habi).
    rewrite He. split.
    + by apply sublist_skip.
    + intros [_ Hall]%Forall_cons. by rewrite IH2.
  - change (omap (entryOf km) (sk :: sks))
      with (match entryOf km sk with
            | Some y => y :: omap (entryOf km) sks
            | None => omap (entryOf km) sks
            end).
    split.
    + destruct (entryOf km sk); [by apply sublist_cons|done].
    + by intros [? _]%Forall_cons.
Qed.

(** X8. The boot entries [InstallKernels] leaves follow the order of the
    source kernels: they are the entries of the source kernels with those
    of the failed copies struck out, and the entries of all source kernels,
    in order, when no copy fails. The other fields of the manager are as
    before. *)
Theorem InstallKernels_entry_order km s :
  Forall (λ sk, strings_HasPrefix sk kernelPrefix = true) (sourceKernels km) →
  ∃ km' s' cs,
    InstallKernels km s = Some ((km', None), s') ∧
    calls s' = calls s ++ cs ∧
    km' = set_bootEntries (bootEntries km') km ∧
    bootEntries km' `sublist_of` omap (entryOf km) (sourceKernels km) ∧
    (Forall (λ c, copySucceeded c = true) cs →
     bootEntries km' = omap (entryOf km) (sourceKernels km)).
Proof.
  intros Hpre. destruct (InstallKernels_run km s Hpre) as (es & cs & s' & Hrun & Hcalls & Hins).
  exists (set_bootEntries es km), s', cs. cbn.
  destruct (installs_sublist _ _ _ _ Hins) as [Hsub Hall]. by split_and!.
Qed.

(** X9. [InstallKernels] panics when the copy of a source kernel whose name
    is shorter than eleven bytes succeeds: the slice that takes the ABI part
    is out of bounds. *)
Theorem InstallKernels_short_name_panics km s sk rest :
  sourceKernels km = sk :: rest →
  String.length sk < 11 →
  (MaybeUpdateFile (fs s) (path_Join (targetDir km) sk) (path_Join (sourceDir km) sk)).2.2
  = None →
  InstallKernels km s = None.
Proof.
  intros Hsk Hlen Hcopy. unfold InstallKernels. rewrite Hsk.
  cbn [InstallKernels_loop]. unfold callMaybeUpdateFile, mbind, M_bind. cbn beta iota.
  destruct (MaybeUpdateFile _ _ _) as [fs' [updated err]]. cbn in Hcopy. subst err.
  assert (Habi : getKernelABI sk = None) by (by apply string_from_None).
  cbn beta iota. unfold log_Printf, mret, M_ret.
  destruct updated; cbn beta iota; by rewrite Habi.
Qed.

Lemma installLogs_cons sk sks c cs :
  installLogs (sk :: sks) (c :: cs) = installLog sk c ++ installLogs sks cs.
Proof. done. Qed.

Lemma InstallKernels_loop_logs km sks acc s :
  Forall (λ sk, strings_HasPrefix sk kernelPrefix = true) sks →
  ∃ es cs s', InstallKernels_loop km sks acc s = Some (acc ++ es, s') ∧
              calls s' = calls s ++ cs ∧ installs km sks cs es ∧
              logs s' = logs s ++ installLogs sks cs.
Proof.
  intros Hpre. revert acc s. induction Hpre as [|sk sks Hsk Hpre IH]; intros acc s.
  - exists [], [], s. rewrite !app_nil_r. split_and!; try done. constructor.
  - cbn [InstallKernels_loop].
    unfold callMaybeUpdateFile, mbind, M_bind. cbn beta iota.
    destruct (MaybeUpdateFile (fs s) (path_Join (targetDir km) sk)
                (path_Join (sourceDir km) sk)) as [fs' [updated [e|]]] eqn:Hcall.
    + unfold log_Printf. cbn beta iota.
      edestruct IH as (es & cs & s' & Hrun & Hcalls & Hins & Hlogs).
      rewrite Hrun. eexists es, (_ :: cs), s'. split_and!; [done| | |].
      * rewrite Hcalls. cbn [calls]. by rewrite <- app_assoc.
      * by constructor.
      * rewrite Hlogs, installLogs_cons. cbn [logs installLog]. by rewrite <- app_assoc.
    + destruct (getKernelABI_prefix sk Hsk) as (abi & Habi & _).
      unfold log_Printf, mret, M_ret. rewrite Habi. unfold orPanic, mret, M_ret.
      destruct updated; cbn beta iota;
        edestruct IH as (es & cs & s' & Hrun & Hcalls & Hins & Hlogs);
        rewrite Hrun; eexists (_ :: es), (_ :: cs), s'; split_and!.
      all: try by rewrite <- app_assoc.
      all: try (rewrite Hcalls; cbn [calls]; by rewrite <- app_assoc).
      all: try by constructor.
      all: rewrite Hlogs, installLogs_cons; cbn [logs installLog];
        by rewrite <- ?app_assoc, ?app_nil_r.
Qed.

(** X10. [InstallKernels] logs, in the order of the source kernels, one
    "Could not install kernel" line with the kernel and the error for each
    copy that failed, one "Installed or updated kernel" line for each copy
    that reported a change, and nothing for a kernel that was up to date. *)
Theorem InstallKernels_logs km s :
  Forall (λ sk, strings_HasPrefix sk kernelPrefix = true) (sourceKernels km) →
  ∃ km' s' cs,
    InstallKernels km s = Some ((km', None), s') ∧
    calls s' = calls s ++ cs ∧
    installs km (sourceKernels km) cs (bootEntries km') ∧
    logs s' = logs s ++ installLogs (sourceKernels km) cs.
Proof.
  intros Hpre.
  destruct (InstallKernels_loop_logs km (sourceKernels km) [] s Hpre)
    as (es & cs & s' & Hrun & Hcalls & Hins & Hlogs).
  exists (set_bootEntries es km), s', cs. split; [|done].
  unfold InstallKernels. by erewrite bind_Some by exact Hrun.
Qed.

End MoreInstall.

(** ** More on [RemoveObsoleteKernels] *)

Lemma filter_all {A} (f : A → bool) (l : list A) :
  Forall (λ x, f x = true) l → List.filter f l = l.
Proof. induction 1 as [|x l Hx _ IH]; cbn; [done|]. by rewrite Hx, IH. Qed.

Lemma filter_none {A} (f : A → bool) (l : list A) :
  Forall (λ x, f x = false) l → List.filter f l = [].
Proof. induction 1 as [|x l Hx _ IH]; cbn; [done|]. by rewrite Hx. Qed.

Lemma filter_sublist {A} (f : A → bool) (l : list A) : List.filter f l `sublist_of` l.
Proof.
  induction l as [|x l IH]; cbn; [constructor|].
  destruct (f x); by constructor.
Qed.

Lemma failedRemovals_sublist names errs : failedRemovals names errs `sublist_of` names.
Proof.
  revert errs. induction names as [|n names IH]; intros [|[e|] errs];
    try (by apply sublist_nil_l).
  - rewrite failedRemovals_cons_failed. by apply sublist_skip.
  - rewrite failedRemovals_cons_removed. by apply sublist_cons.
Qed.

Section MoreRemoval.
Context `{H : Host}.

Lemma removeResults_length km names f :
  List.length (removeResults km names f).1 = List.length names.
Proof.
  revert f. induction names as [|tk names IH]; intros f; cbn; [done|].
  destruct (Remove f (path_Join (targetDir km) tk)) as [f' err].
  specialize (IH f'). destruct (removeResults km names f') as [errs f'']. cbn in *. lia.
Qed.

Lemma RemoveObsoleteKernels_loop_effects km tks remaining s :
  RemoveObsoleteKernels_loop km tks remaining s
  = let obs := List.filter (isObsoleteKernel km) tks in
    let r := removeResults km obs (fs s) in
    Some (remaining ++ failedRemovals obs r.1,
          mkSys r.2 (logs s ++ removeLogs obs r.1) (calls s ++ removeCalls km obs r.1)).
Proof.
  revert remaining s. induction tks as [|tk tks IH]; intros remaining s.
  - cbn. rewrite !app_nil_r. by destruct s.
  - cbn [RemoveObsoleteKernels_loop List.filter].
    destruct (isObsoleteKernel km tk) eqn:Hobs; cbn [negb]; [|apply IH].
    unfold appFs_Remove, mbind, M_bind. cbn beta iota zeta.
    cbn [removeResults].
    destruct (Remove (fs s) (path_Join (targetDir km) tk)) as [fs' [e|]] eqn:Hrm;
      cbn beta iota; unfold log_Printf; cbn beta iota; rewrite IH; cbn [fs logs calls];
      cbn zeta; destruct (removeResults km _ fs') as [errs f'']; cbn [fst snd].
    + rewrite failedRemovals_cons_failed. unfold removeLogs, removeCalls.
      cbn [zip_with]. by rewrite <- !app_assoc.
    + rewrite failedRemovals_cons_removed. unfold removeLogs, removeCalls.
      cbn [zip_with]. by rewrite <- !app_assoc.
Qed.

Lemma RemoveObsoleteKernels_closed_form km s :
  RemoveObsoleteKernels km s
  = let obs := obsoleteKernels km in
    let r := removeResults km obs (fs s) in
    Some ((set_targetKernels (failedRemovals obs r.1) km, None),
          mkSys r.2 (logs s ++ removeLogs obs r.1) (calls s ++ removeCalls km obs r.1)).
Proof.
  unfold RemoveObsoleteKernels.
  by erewrite bind_Some by apply RemoveObsoleteKernels_loop_effects.
Qed.

(** X11. The whole effect of [RemoveObsoleteKernels]: the file system is
    the one left by removing the obsolete kernels one after the other in the
    order of the target list, each removal starting from the file system the
    previous one left; the log gains one line per attempt, "Removed kernel"
    or "Could not remove kernel" with the error, in that order; nothing else
    is logged or called; no error is returned. *)
Theorem RemoveObsoleteKernels_effects km s :
  let obs := obsoleteKernels km in
  let r := removeResults km obs (fs s) in
  List.length r.1 = List.length obs ∧
  RemoveObsoleteKernels km s
  = Some ((set_targetKernels (failedRemovals obs r.1) km, None),
          mkSys r.2 (logs s ++ removeLogs obs r.1) (calls s ++ removeCalls km obs r.1)).
Proof.
  cbn zeta. split; [apply removeResults_length|apply RemoveObsoleteKernels_closed_form].
Qed.

(** X12. When every tracked target kernel is also a source kernel,
    [RemoveObsoleteKernels] touches neither the file system nor the log, and
    leaves the manager tracking no target kernel at all. *)
Theorem RemoveObsoleteKernels_nothing_obsolete km s :
  targetKernels km ⊆ sourceKernels km →
  RemoveObsoleteKernels km s = Some ((set_targetKernels [] km, None), s).
Proof.
  intros Hsub.
  rewrite RemoveObsoleteKernels_closed_form. cbn zeta.
  assert (Hobs : obsoleteKernels km = []).
  { unfold obsoleteKernels. apply filter_none, Forall_forall. intros tk Htk.
    destruct (isObsoleteKernel km tk) eqn:Ho; [|done].
    apply isObsoleteKernel_spec in Ho. destruct Ho. by apply Hsub. }
  rewrite Hobs. cbn. rewrite !app_nil_r. by destruct s.
Qed.

(** X13. The tracked target list only shrinks: what [RemoveObsoleteKernels]
    leaves is a sublist of the obsolete kernels, hence of the former target
    list, and holds no source kernel; the source kernels, the boot entries
    and the other fields are as before. *)
Theorem RemoveObsoleteKernels_target_sublist km s km' err s' :
  RemoveObsoleteKernels km s = Some ((km', err), s') →
  err = None ∧
  km' = set_targetKernels (targetKernels km') km ∧
  targetKernels km' `sublist_of` obsoleteKernels km ∧
  targetKernels km' `sublist_of` targetKernels km ∧
  Forall (λ tk, tk ∉ sourceKernels km') (targetKernels km').
Proof.
  rewrite RemoveObsoleteKernels_closed_form. cbn zeta. intros [= <- <- <-].
  cbn. split_and!; try done.
  - apply failedRemovals_sublist.
  - etrans; [apply failedRemovals_sublist|apply filter_sublist].
  - apply Forall_forall. intros tk Htk.
    pose proof (elem_of_sublist _ _ _ Htk (failedRemovals_sublist _ _)) as Htk'.
    by apply obsoleteKernels_spec in Htk' as [_ ?].
Qed.

(** X14. A second call retries exactly what the first one could not
    delete: after a call of [RemoveObsoleteKernels], every tracked target
    kernel is obsolete, so the next call, from whatever state, attempts each
    of them once, in order, and nothing else. *)
Theorem RemoveObsoleteKernels_retries_failed km s km1 err s1 s2 :
  RemoveObsoleteKernels km s = Some ((km1, err), s1) →
  obsoleteKernels km1 = targetKernels km1 ∧
  ∃ km2 s3 errs,
    RemoveObsoleteKernels km1 s2 = Some ((km2, None), s3) ∧
    List.length errs = List.length (targetKernels km1) ∧
    calls s3 = calls s2 ++ removeCalls km1 (targetKernels km1) errs ∧
    targetKernels km2 = failedRemovals (targetKernels km1) errs.
Proof.
  rewrite RemoveObsoleteKernels_closed_form. cbn zeta. intros [= <- <- <-].
  assert (Hobs : ∀ l, obsoleteKernels (set_targetKernels (failedRemovals (obsoleteKernels km) l) km)
                      = failedRemovals (obsoleteKernels km) l).
  { intros l. unfold obsoleteKernels at 1. cbn [targetKernels set_targetKernels].
    apply filter_all, Forall_forall. intros tk Htk.
    pose proof (elem_of_sublist _ _ _ Htk (failedRemovals_sublist _ _)) as Htk'.
    apply isObsoleteKernel_spec. cbn. by apply obsoleteKernels_spec in Htk' as [_ ?]. }
  split; [apply Hobs|].
  rewrite RemoveObsoleteKernels_closed_form. cbn zeta. rewrite Hobs.
  eexists _, _, _. split; [done|]. split_and!; [|done..].
  by rewrite removeResults_length.
Qed.

(** X15. [isObsoleteKernel] answers by the exact file name: a kernel is kept
    as current precisely when its name is among the source kernels. *)
Theorem isObsoleteKernel_current km k :
  isObsoleteKernel km k = false ↔ k ∈ sourceKernels km.
Proof.
  rewrite <- not_true_iff_false, isObsoleteKernel_spec.
  destruct (decide (k ∈ sourceKernels km)); tauto.
Qed.

End MoreRemoval.

(** ** More on [CommitToBootLoader] and the caller *)

Section MoreCommit.
Context `{H : Host}.

Lemma CommitToBootLoader_calls km s :
  ∃ s' w, CommitToBootLoader km s = Some ((km, None), s') ∧
    calls s' = calls s ++ [CallWriteShimFallbackToFile (fallbackFile km) (bootEntries km) w].
Proof.
  unfold CommitToBootLoader, fallbackFile, callWriteShimFallbackToFile, log_Print,
    log_Printf, mbind, M_bind, mret, M_ret. cbn.
  destruct (WriteShimFallbackToFile _ _ _) as [fs' [e|]]; cbn; by eexists _, _.
Qed.

(** X16. [CommitToBootLoader] writes the fallback file exactly once, at
    BOOT<ARCH>.CSV of the target directory, with the boot entries the manager
    holds; it never returns an error and never changes the manager; when the
    write succeeds it logs its two progress lines and nothing else. *)
Theorem CommitToBootLoader_writes_once km s :
  ∃ s' w, CommitToBootLoader km s = Some ((km, None), s') ∧
    w = (WriteShimFallbackToFile (fs s) (fallbackFile km) (bootEntries km)).2 ∧
    fs s' = (WriteShimFallbackToFile (fs s) (fallbackFile km) (bootEntries km)).1 ∧
    calls s' = calls s ++ [CallWriteShimFallbackToFile (fallbackFile km) (bootEntries km) w] ∧
    (w = None →
     logs s' = logs s ++ [Print [ArgS "Configuring shim fallback loader"];
                          Print [ArgS "Configuring UEFI boot device selection"]]).
Proof.
  unfold CommitToBootLoader, fallbackFile, callWriteShimFallbackToFile, log_Print,
    log_Printf, mbind, M_bind, mret, M_ret. cbn.
  destruct (WriteShimFallbackToFile _ _ _) as [fs' [e|]]; cbn;
    eexists _, _; (split; [done|]); split_and!; try done.
  intros _. by rewrite <- !app_assoc.
Qed.

Lemma main_kernel_steps_calls km s :
  Forall (λ sk, strings_HasPrefix sk kernelPrefix = true) (sourceKernels km) →
  ∃ es cs w1 errs w2 s',
    main_kernel_steps km s
    = Some ((set_targetKernels (failedRemovals (obsoleteKernels km) errs)
               (set_bootEntries es km), Completed), s') ∧
    installs km (sourceKernels km) cs es ∧
    List.length errs = List.length (obsoleteKernels km) ∧
    calls s' = calls s ++ cs
      ++ [CallWriteShimFallbackToFile (fallbackFile km) es w1]
      ++ removeCalls km (obsoleteKernels km) errs
      ++ [CallWriteShimFallbackToFile (fallbackFile km) es w2].
Proof.
  intros Hpre. unfold main_kernel_steps, exitOnErr.
  destruct (InstallKernels_run km s Hpre) as (es & cs & s1 & Hr1 & Hc1 & Hins).
  erewrite bind_Some by exact Hr1. cbn [fst snd].
  destruct (CommitToBootLoader_calls (set_bootEntries es km) s1) as (s2 & w1 & Hr2 & Hc2).
  erewrite bind_Some by exact Hr2. cbn [fst snd].
  destruct (RemoveObsoleteKernels_run (set_bootEntries es km) s2)
    as (errs & s3 & Hr3 & Hlen & Hc3).
  erewrite bind_Some by exact Hr3. cbn [fst snd].
  destruct (CommitToBootLoader_calls
              (set_targetKernels (failedRemovals (obsoleteKernels (set_bootEntries es km)) errs)
                 (set_bootEntries es km)) s3) as (s4 & w2 & Hr4 & Hc4).
  erewrite bind_Some by exact Hr4. cbn [fst snd].
  exists es, cs, w1, errs, w2, s4. split; [done|]. split_and!; try done.
  rewrite Hc4, Hc3, Hc2, Hc1. by rewrite <- !app_assoc.
Qed.

(** X17. The caller's four steps, end to end: the copies of the source
    kernels, one write of the fallback file, the deletions of the obsolete
    target kernels, and a second write; both writes carry the same boot
    entries, those of the kernels whose copy succeeded, and the manager left
    tracks the target kernels whose deletion failed. *)
Theorem main_kernel_steps_trace km s :
  Forall (λ sk, strings_HasPrefix sk kernelPrefix = true) (sourceKernels km) →
  ∃ km' s' cs w1 errs w2,
    main_kernel_steps km s = Some ((km', Completed), s') ∧
    installs km (sourceKernels km) cs (bootEntries km') ∧
    List.length errs = List.length (obsoleteKernels km) ∧
    calls s' = calls s ++ cs
      ++ [CallWriteShimFallbackToFile (fallbackFile km) (bootEntries km') w1]
      ++ removeCalls km (obsoleteKernels km) errs
      ++ [CallWriteShimFallbackToFile (fallbackFile km) (bootEntries km') w2] ∧
    sourceKernels km' = sourceKernels km ∧
    targetKernels km' = failedRemovals (obsoleteKernels km) errs.
Proof.
  intros Hpre.
  destruct (main_kernel_steps_calls km s Hpre)
    as (es & cs & w1 & errs & w2 & s' & Hrun & Hins & Hlen & Hcalls).
  exists (set_targetKernels (failedRemovals (obsoleteKernels km) errs) (set_bootEntries es km)),
    s', cs, w1, errs, w2.
  cbn [bootEntries sourceKernels targetKernels set_targetKernels set_bootEntries].
  by split_and!.
Qed.



End MoreCommit.

(** ** More on the in-memory EFI variable store *)

Section MoreMock.
Context `{H : Host}.

(** X19. [ListVariables] and [GetVariable] of the in-memory store agree:
    listing never fails and names no descriptor twice, and a descriptor is
    listed exactly when [GetVariable] finds it; a store that was never
    written lists nothing. *)
Theorem MockEFIVariables_list_get (m : MockEFIVariables) :
  (ListVariables m).2 = None ∧
  NoDup (ListVariables m).1 ∧
  (∀ guid name, mkVariableDescriptor name guid ∈ (ListVariables m).1 ↔
                (GetVariable m guid name).2 = None) ∧
  (store m = None → (ListVariables m).1 = []).
Proof.
  cbn. unfold Mock_ListVariables, Mock_GetVariable, store_lookup. cbn.
  destruct (store m) as [st|]; split_and!; try done.
  - apply NoDup_fst_map_to_list.
  - intros guid name. rewrite list_elem_of_fmap. split.
    + intros ([d v] & Heq & Hin%elem_of_map_to_list). cbn in Heq, Hin. subst d.
      by rewrite Hin.
    + destruct (st !! _) as [v|] eqn:Hl; [|done]. intros _.
      exists (mkVariableDescriptor name guid, v). split; [done|].
      by apply elem_of_map_to_list.
  - apply NoDup_nil_2.
  - intros guid name. split; [by intros ?%elem_of_nil|done].
Qed.

(** X20. [SetVariable] touches one descriptor only: whatever the payload,
    every other descriptor reads as before and is listed as before; the
    descriptor set is listed afterwards exactly when the payload is not
    empty. *)
Theorem MockEFIVariables_set_frame (m : MockEFIVariables)
    (guid : efi_GUID) (name : string) (payload : list Byte.byte)
    (att : VariableAttributes) :
  let m' := (SetVariable m guid name payload att).1 in
  (∀ guid' name', mkVariableDescriptor name guid ≠ mkVariableDescriptor name' guid' →
     GetVariable m' guid' name' = GetVariable m guid' name' ∧
     (mkVariableDescriptor name' guid' ∈ (ListVariables m').1 ↔
      mkVariableDescriptor name' guid' ∈ (ListVariables m).1)) ∧
  (mkVariableDescriptor name guid ∈ (ListVariables m').1 ↔ payload ≠ []).
Proof.
  cbn zeta.
  assert (Hlist : ∀ (m0 : MockEFIVariables) d,
    d ∈ (ListVariables m0).1 ↔ is_Some (store_lookup m0 d)).
  { intros m0 d. cbn. unfold Mock_ListVariables, store_lookup. cbn.
    destruct (store m0) as [st|].
    - rewrite list_elem_of_fmap. split.
      + intros ([d' v] & Heq & Hin%elem_of_map_to_list). cbn in Heq. subst d'.
        by exists v.
      + intros [v Hv]. exists (d, v). split; [done|]. by apply elem_of_map_to_list.
    - split; [by intros ?%elem_of_nil|by intros [? ?]]. }
  assert (Hother : ∀ d, mkVariableDescriptor name guid ≠ d →
    store_lookup (SetVariable m guid name payload att).1 d = store_lookup m d).
  { intros d Hne. cbn. unfold Mock_SetVariable, store_lookup. cbn.
    destruct (List.length payload =? 0).
    - rewrite lookup_delete_ne by done. by destruct (store m).
    - rewrite lookup_insert_ne by done. by destruct (store m). }
  split.
  - intros guid' name' Hne. split.
    + cbn. unfold Mock_GetVariable. change (Mock_SetVariable m guid name payload att)
        with (SetVariable m guid name payload att). by rewrite Hother.
    + by rewrite !Hlist, Hother.
  - rewrite Hlist. cbn. unfold Mock_SetVariable, store_lookup. cbn.
    destruct payload as [|b payload]; cbn.
    + rewrite lookup_delete_eq. split; [by intros [? ?]|done].
    + rewrite lookup_insert_eq. split; [done|by eexists].
Qed.

End MoreMock.

Import MoreFixtures.

(** ** The further properties on the fixtures *)

Lemma NewKernelManager_returns_witness :
  sys_three = sys_three ∧
  ((Some (manager ["kernel.efi-5.4.0-100"; "kernel.efi-5.4.0-10"; "kernel.efi-5.4.0-9"] [])
    = None ∧ is_Some (@None error)) ∨
   (@None error = None ∧ ∃ ks kt,
      Some (manager ["kernel.efi-5.4.0-100"; "kernel.efi-5.4.0-10"; "kernel.efi-5.4.0-9"] [])
      = Some (mkKernelManager "/usr/lib/linux" "/boot/efi/EFI/ubuntu" ks kt []
                "root=magic"))).
Proof.
  apply (NewKernelManager_returns sys_three
           (Some (manager ["kernel.efi-5.4.0-100"; "kernel.efi-5.4.0-10"; "kernel.efi-5.4.0-9"] []))
           None sys_three).
  by vm_compute.
Defined.

Lemma NewKernelManager_listing_error_witness :
  NewKernelManager sys_no_target
  = Some ((None, Some (fmt_Errorf "Could not determine kernels: %w" []
                         (errors_New "file does not exist"))), sys_no_target).
Proof.
  apply (NewKernelManager_listing_error sys_no_target (errors_New "file does not exist")).
  right. split; [|by vm_compute]. exists ["kernel.efi-5.4.0-10"]. by vm_compute.
Defined.

Lemma NewKernelManager_succeeds_witness :
  ∃ km,
    NewKernelManager sys_both = Some ((Some km, None), sys_both) ∧
    sourceKernels km ≡ₚ kernelNames three_kernels ∧
    targetKernels km ≡ₚ kernelNames target_kernels ∧
    StronglySorted (λ a b, newer b a = false) (sourceKernels km) ∧
    StronglySorted (λ a b, newer b a = false) (targetKernels km) ∧
    Forall (λ k, strings_HasPrefix k kernelPrefix = true)
      (sourceKernels km ++ targetKernels km).
Proof.
  apply (NewKernelManager_succeeds sys_both three_kernels target_kernels).
  - by vm_compute.
  - by vm_compute.
  - intros k Hk. apply parsesb_correct. revert k Hk. apply Forall_forall.
    by repeat constructor.
  - apply sortableb_correct. by vm_compute.
  - apply sortableb_correct. by vm_compute.
Defined.

Lemma NewKernelManager_rejects_unparsable_witness :
  ∃ err, NewKernelManager sys_target_unparsable
         = Some ((None, Some err), sys_target_unparsable) ∧
         parseError (kernelNames two_kernels
                     ++ kernelNames ["kernel.efi-5.4.0-9"; "kernel.efi-garbage"]) (Some err).
Proof.
  apply (NewKernelManager_rejects_unparsable sys_target_unparsable two_kernels
           ["kernel.efi-5.4.0-9"; "kernel.efi-garbage"]).
  - by vm_compute.
  - by vm_compute.
  - cbn. lia.
  - cbn. lia.
  - right. split; [cbn; lia|]. exists "kernel.efi-garbage". split.
    + cbn. by repeat constructor.
    + intros (abi & v & Habi & Hv). vm_compute in Habi. injection Habi as <-.
      by vm_compute in Hv.
Defined.

Lemma NewKernelManager_then_main_steps_witness :
  sourceKernels (manager ["kernel.efi-5.4.0-100"; "kernel.efi-5.4.0-10"; "kernel.efi-5.4.0-9"]
                   ["kernel.efi-5.4.0-10"; "kernel.efi-5.4.0-9"; "kernel.efi-5.4.0-8"])
    ≡ₚ kernelNames three_kernels ∧
  targetKernels (manager ["kernel.efi-5.4.0-100"; "kernel.efi-5.4.0-10"; "kernel.efi-5.4.0-9"]
                   ["kernel.efi-5.4.0-10"; "kernel.efi-5.4.0-9"; "kernel.efi-5.4.0-8"])
    ≡ₚ kernelNames target_kernels ∧
  Forall (λ k, strings_HasPrefix k kernelPrefix = true)
    (["kernel.efi-5.4.0-100"; "kernel.efi-5.4.0-10"; "kernel.efi-5.4.0-9"]
     ++ ["kernel.efi-5.4.0-10"; "kernel.efi-5.4.0-9"; "kernel.efi-5.4.0-8"]) ∧
  ∃ km' s'',
    main_kernel_steps
      (manager ["kernel.efi-5.4.0-100"; "kernel.efi-5.4.0-10"; "kernel.efi-5.4.0-9"]
         ["kernel.efi-5.4.0-10"; "kernel.efi-5.4.0-9"; "kernel.efi-5.4.0-8"]) sys_both
    = Some ((km', Completed), s'').
Proof.
  apply (NewKernelManager_then_main_steps sys_both three_kernels target_kernels
           (manager ["kernel.efi-5.4.0-100"; "kernel.efi-5.4.0-10"; "kernel.efi-5.4.0-9"]
              ["kernel.efi-5.4.0-10"; "kernel.efi-5.4.0-9"; "kernel.efi-5.4.0-8"]) sys_both).
  - by vm_compute.
  - by vm_compute.
  - cbn. lia.
  - cbn. lia.
  - by vm_compute.
Defined.

Lemma InstallKernels_entry_order_witness :
  ∃ km' s' cs,
    InstallKernels (manager two_kernels []) sys_two_faulty = Some ((km', None), s') ∧
    calls s' = calls sys_two_faulty ++ cs ∧
    km' = set_bootEntries (bootEntries km') (manager two_kernels []) ∧
    bootEntries km' `sublist_of` omap (entryOf (manager two_kernels [])) two_kernels ∧
    (Forall (λ c, copySucceeded c = true) cs →
     bootEntries km' = omap (entryOf (manager two_kernels [])) two_kernels).
Proof.
  apply (InstallKernels_entry_order (manager two_kernels []) sys_two_faulty).
  by repeat constructor.
Defined.

Lemma InstallKernels_short_name_panics_witness :
  InstallKernels (manager ["k"] []) sys_short_name = None.
Proof.
  apply (InstallKernels_short_name_panics (manager ["k"] []) sys_short_name "k" []).
  - reflexivity.
  - cbn. lia.
  - by vm_compute.
Defined.

Lemma InstallKernels_logs_witness :
  ∃ km' s' cs,
    InstallKernels (manager two_kernels []) sys_two_faulty = Some ((km', None), s') ∧
    calls s' = calls sys_two_faulty ++ cs ∧
    installs (manager two_kernels []) two_kernels cs (bootEntries km') ∧
    logs s' = logs sys_two_faulty ++ installLogs two_kernels cs.
Proof.
  apply (InstallKernels_logs (manager two_kernels []) sys_two_faulty).
  by repeat constructor.
Defined.

Lemma RemoveObsoleteKernels_nothing_obsolete_witness :
  RemoveObsoleteKernels km_current sys_two
  = Some ((set_targetKernels [] km_current, None), sys_two).
Proof.
  apply (RemoveObsoleteKernels_nothing_obsolete km_current sys_two).
  intros k Hk. cbn in Hk. apply list_elem_of_singleton in Hk as ->. cbn.
  by repeat constructor.
Defined.

Lemma RemoveObsoleteKernels_target_sublist_witness :
  @None error = None ∧
  manager ["kernel.efi-5.4.0-10"] ["kernel.efi-5.4.0-9"]
  = set_targetKernels
      (targetKernels (manager ["kernel.efi-5.4.0-10"] ["kernel.efi-5.4.0-9"])) km_obsolete ∧
  targetKernels (manager ["kernel.efi-5.4.0-10"] ["kernel.efi-5.4.0-9"])
    `sublist_of` obsoleteKernels km_obsolete ∧
  targetKernels (manager ["kernel.efi-5.4.0-10"] ["kernel.efi-5.4.0-9"])
    `sublist_of` targetKernels km_obsolete ∧
  Forall (λ tk, tk ∉ sourceKernels (manager ["kernel.efi-5.4.0-10"] ["kernel.efi-5.4.0-9"]))
    (targetKernels (manager ["kernel.efi-5.4.0-10"] ["kernel.efi-5.4.0-9"])).
Proof.
  eapply (RemoveObsoleteKernels_target_sublist km_obsolete sys_obsolete_faulty).
  vm_compute. reflexivity.
Defined.

Lemma RemoveObsoleteKernels_retries_failed_witness :
  obsoleteKernels (manager ["kernel.efi-5.4.0-10"] ["kernel.efi-5.4.0-9"])
  = targetKernels (manager ["kernel.efi-5.4.0-10"] ["kernel.efi-5.4.0-9"]) ∧
  ∃ km2 s3 errs,
    RemoveObsoleteKernels (manager ["kernel.efi-5.4.0-10"] ["kernel.efi-5.4.0-9"]) sys_obsolete
    = Some ((km2, None), s3) ∧
    List.length errs
    = List.length (targetKernels (manager ["kernel.efi-5.4.0-10"] ["kernel.efi-5.4.0-9"])) ∧
    calls s3 = calls sys_obsolete
      ++ removeCalls (manager ["kernel.efi-5.4.0-10"] ["kernel.efi-5.4.0-9"])
           (targetKernels (manager ["kernel.efi-5.4.0-10"] ["kernel.efi-5.4.0-9"])) errs ∧
    targetKernels km2
    = failedRemovals (targetKernels (manager ["kernel.efi-5.4.0-10"] ["kernel.efi-5.4.0-9"]))
        errs.
Proof.
  eapply (RemoveObsoleteKernels_retries_failed km_obsolete sys_obsolete_faulty
            (manager ["kernel.efi-5.4.0-10"] ["kernel.efi-5.4.0-9"]) None _ sys_obsolete).
  vm_compute. reflexivity.
Defined.

Lemma main_kernel_steps_trace_witness :
  ∃ km' s' cs w1 errs w2,
    main_kernel_steps km_obsolete sys_obsolete_faulty = Some ((km', Completed), s') ∧
    installs km_obsolete (sourceKernels km_obsolete) cs (bootEntries km') ∧
    List.length errs = List.length (obsoleteKernels km_obsolete) ∧
    calls s' = calls sys_obsolete_faulty ++ cs
      ++ [CallWriteShimFallbackToFile (fallbackFile km_obsolete) (bootEntries km') w1]
      ++ removeCalls km_obsolete (obsoleteKernels km_obsolete) errs
      ++ [CallWriteShimFallbackToFile (fallbackFile km_obsolete) (bootEntries km') w2] ∧
    sourceKernels km' = sourceKernels km_obsolete ∧
    targetKernels km' = failedRemovals (obsoleteKernels km_obsolete) errs.
Proof.
  apply (main_kernel_steps_trace km_obsolete sys_obsolete_faulty).
  by repeat constructor.
Defined.

